(** * Dagster: run creation, scheduling policies and the automation-condition sensor

    A shallow embedding of

    - [dagster/core/instance/__init__.py]: [DagsterInstance.create_run] and
      [DagsterInstance.get_or_create_run];
    - [dagster/_core/reactive_scheduling/scheduling_policy.py]:
      [SchedulingPolicy] and [DefaultSchedulingPolicy];
    - [dagster/_core/definitions/automation_condition_sensor_definition.py]:
      [evaluate_automation_conditions], [not_supported] and
      [AutomationConditionSensorDefinition.__init__].

    Python code that raises is modelled in a state-and-exception monad; the
    state is whatever the code reads or mutates outside its arguments (the run
    storage, the wall clock). *)

From Stdlib Require Import Ascii.
From stdpp Require Import gmap strings list fin_maps.

Open Scope string_scope.

(** ** Exceptions and the state-and-exception monad *)

Inductive Exn : Type :=
  | DagsterRunAlreadyExists
  | DagsterRunConflict
  | CheckError
  | ParameterCheckError
  | DagsterInvalidDefinitionError
  | NotImplementedError
  | IndexError
  | ValueError.

#[global] Instance Exn_eq_dec : EqDecision Exn.
Proof. solve_decision. Defined.

Inductive Outcome (A : Type) : Type :=
  | Returns (a : A)
  | Raises (e : Exn).
Arguments Returns {A} a.
Arguments Raises {A} e.

(** A computation over a state [S]: it ends by returning or by raising, and
    in both cases leaves a state behind. *)
Definition M (S A : Type) : Type := S -> Outcome A * S.

Definition ret {S A} (a : A) : M S A := fun s => (Returns a, s).

Definition raise {S A} (e : Exn) : M S A := fun s => (Raises e, s).

Definition bind {S A B} (m : M S A) (k : A -> M S B) : M S B :=
  fun s =>
    match m s with
    | (Returns a, s') => k a s'
    | (Raises e, s') => (Raises e, s')
    end.

(** [try: m except e => h]: only the exception [e] is caught. *)
Definition try_except {S A} (m : M S A) (e : Exn) (h : M S A) : M S A :=
  fun s =>
    match m s with
    | (Returns a, s') => (Returns a, s')
    | (Raises e', s') => if decide (e' = e) then h s' else (Raises e', s')
    end.

Declare Scope py_scope.
Delimit Scope py_scope with py.
Notation "x <- m ;; k" := (bind m (fun x => k))
  (at level 100, m at next level, right associativity) : py_scope.
Notation "m ;; k" := (bind m (fun _ => k))
  (at level 100, right associativity) : py_scope.
Open Scope py_scope.

(** ** [dagster.core.instance]: creating runs *)

Module Instance.

(** [PipelineRun] is a named tuple; [==] on it is structural. *)
Record PipelineRun : Type := mkPipelineRun {
  pipeline_name : string;
  run_id : string;
  mode : string;
  tags : list (string * string)
}.

#[global] Instance PipelineRun_eq_dec : EqDecision PipelineRun.
Proof. solve_decision. Defined.

(** Modelled from the spec: the run storage (the class behind
    [self._run_storage]) is an external collaborator. It maps run ids to
    runs, it may be written by other instigators between any two calls of
    this instance, and it admits a run id at most once: adding a run whose
    id is taken raises the run-already-exists error and stores nothing.
    [others] is the schedule of the other writers: one action is consumed
    ahead of every storage call, none when the schedule is exhausted. *)
Record RunStorage : Type := mkRunStorage {
  runs : gmap string PipelineRun;
  others : list (gmap string PipelineRun -> gmap string PipelineRun)
}.

(** A storage nobody else is writing. *)
Definition quiescent (rs : gmap string PipelineRun) : RunStorage :=
  {| runs := rs; others := [] |}.

(** Modelled from the spec: the other writers take their turn ahead of a
    storage call. *)
Definition interleave : M RunStorage unit :=
  fun st =>
    match others st with
    | [] => (Returns tt, st)
    | f :: rest => (Returns tt, {| runs := f (runs st); others := rest |})
    end.

(** Modelled from the spec: [RunStorage.has_run]. *)
Definition storage_has_run (rid : string) : M RunStorage bool :=
  interleave ;;
  fun st => (Returns (bool_decide (is_Some (runs st !! rid))), st).

(** Modelled from the spec: [RunStorage.get_run_by_id], [None] for an id
    the storage does not hold. *)
Definition storage_get_run_by_id (rid : string) : M RunStorage (option PipelineRun) :=
  interleave ;;
  fun st => (Returns (runs st !! rid), st).

(** Modelled from the spec: [RunStorage.add_run], at most once per run id. *)
Definition storage_add_run (pipeline_run : PipelineRun) : M RunStorage PipelineRun :=
  interleave ;;
  fun st =>
    match runs st !! run_id pipeline_run with
    | Some _ => (Raises DagsterRunAlreadyExists, st)
    | None =>
        (Returns pipeline_run,
         {| runs := <[run_id pipeline_run := pipeline_run]> (runs st);
            others := others st |})
    end.

(** The methods of [DagsterInstance]. *)

Definition get_run_by_id (rid : string) : M RunStorage (option PipelineRun) :=
  storage_get_run_by_id rid.

Definition has_run (rid : string) : M RunStorage bool :=
  storage_has_run rid.

Definition add_run (pipeline_run : PipelineRun) : M RunStorage PipelineRun :=
  storage_add_run pipeline_run.

(** [check.inst_param(pipeline_run, 'pipeline_run', PipelineRun)] holds by
    typing. *)
Definition create_run (pipeline_run : PipelineRun) : M RunStorage PipelineRun :=
  present <- has_run (run_id pipeline_run) ;;
  if (present : bool) then raise DagsterRunAlreadyExists
  else
    run <- storage_add_run pipeline_run ;;
    ret run.

(** [get_run_by_id] answers [None] for an id the storage does not hold, so
    the result is an [option]. *)
Definition get_or_create_run (pipeline_run : PipelineRun)
  : M RunStorage (option PipelineRun) :=
  present <- has_run (run_id pipeline_run) ;;
  if (present : bool) then
    candidate_run <- get_run_by_id (run_id pipeline_run) ;;
    if negb (bool_decide (candidate_run = Some pipeline_run))
    then raise DagsterRunConflict
    else ret candidate_run
  else
    try_except
      (run <- create_run pipeline_run ;; ret (Some run))
      DagsterRunAlreadyExists
      (still <- has_run (run_id pipeline_run) ;;
       if negb still then raise CheckError
       else get_run_by_id (run_id pipeline_run)).

(** Two runs that share the id "r" and differ in their pipeline. *)
Definition run_a : PipelineRun :=
  {| pipeline_name := "a"; run_id := "r"; mode := "default"; tags := [] |}.

Definition run_b : PipelineRun :=
  {| pipeline_name := "b"; run_id := "r"; mode := "default"; tags := [] |}.

(** Another instigator storing [run_b]. *)
Definition other_adds_b (rs : gmap string PipelineRun) : gmap string PipelineRun :=
  <["r" := run_b]> rs.

Definition other_idle (rs : gmap string PipelineRun) : gmap string PipelineRun := rs.

End Instance.

(** ** Data shared by the scheduling modules *)

(** An [AssetKey] is its ordered path; an [AssetKeyPartitionKey] pairs it
    with an optional partition key. *)
Abbreviation AssetKey := (list string).
Abbreviation AssetKeyPartitionKey := (list string * option string)%type.

(** A [datetime] is kept as its POSIX time on the microsecond grid;
    [timestamp] is [datetime.timestamp()], the same instant as a number
    (Python answers in seconds as a float, here it stays in microseconds). *)
Record datetime : Type := mkDatetime {
  posix_micros : Z;
  tzname : string
}.

Definition timestamp (dt : datetime) : Z := posix_micros dt.

(** An automation condition is a tree of named leaf predicates under the
    boolean combinators. *)
Inductive AutomationCondition : Type :=
  | LeafCondition (label : string)
  | AndCondition (left right : AutomationCondition)
  | OrCondition (left right : AutomationCondition)
  | NotCondition (operand : AutomationCondition).

Record AssetNode : Type := mkAssetNode {
  node_key : AssetKey;
  parent_keys : list AssetKey;
  partition_keys : option (list string);
  automation_condition : option AutomationCondition
}.

(** The nodes are listed upstream first. *)
Record AssetGraph : Type := mkAssetGraph {
  asset_nodes : list AssetNode
}.

Record RepositoryDefinition : Type := mkRepositoryDefinition {
  asset_graph : AssetGraph
}.

(** What the scheduling code reads from the instance: the history it
    queries and two settings. *)
Record DagsterInstance : Type := mkDagsterInstance {
  materialized : gset AssetKeyPartitionKey;
  in_flight : gset AssetKeyPartitionKey;
  da_request_backfills : bool;
  auto_materialize_run_tags : list (string * string)
}.

Record Logger : Type := mkLogger {
  logger_name : string
}.

Record CachingInstanceQueryer : Type := mkCachingInstanceQueryer {
  queryer_instance : DagsterInstance;
  queryer_asset_graph : AssetGraph;
  evaluation_time : datetime;
  queryer_logger : Logger
}.

Record RunRequest : Type := mkRunRequest {
  asset_selection_of_request : list AssetKey;
  partition_key : option string;
  request_tags : list (string * string)
}.

Inductive DefaultSensorStatus : Type := RUNNING | STOPPED.

(** ** [dagster._core.reactive_scheduling.scheduling_policy] *)

Module ReactiveScheduling.

Record SchedulingResult : Type := mkSchedulingResult {
  launch : bool;
  cursor : option string;
  explicit_partition_keys : option (gset string)
}.

Record SchedulingExecutionContext : Type := mkSchedulingExecutionContext {
  previous_tick_dt : option datetime;
  tick_dt : datetime;
  queryer : CachingInstanceQueryer;
  repository_def : RepositoryDefinition;
  asset_key : AssetKey;
  previous_cursor : option string
}.

Definition instance (context : SchedulingExecutionContext) : DagsterInstance :=
  queryer_instance (queryer context).

Record RequestReaction : Type := mkRequestReaction {
  include : bool
}.

Record TickSettings : Type := mkTickSettings {
  tick_cron : string;
  sensor_name : option string;
  description : option string;
  default_status : DefaultSensorStatus
}.

(** A policy object is the record of its attributes and methods. The bodies
    of the base class are [...]: they return [None]. *)
Record SchedulingPolicy : Type := mkSchedulingPolicy {
  tick_settings : option TickSettings;
  schedule : SchedulingExecutionContext -> option SchedulingResult;
  react_to_downstream_request :
    SchedulingExecutionContext -> AssetKeyPartitionKey -> option RequestReaction;
  react_to_upstream_request :
    SchedulingExecutionContext -> AssetKeyPartitionKey -> option RequestReaction
}.

Definition SchedulingPolicy_base : SchedulingPolicy :=
  {| tick_settings := None;
     schedule := fun _ => None;
     react_to_downstream_request := fun _ _ => None;
     react_to_upstream_request := fun _ _ => None |}.

(** The subclass overrides two methods and inherits the rest. *)
Definition DefaultSchedulingPolicy : SchedulingPolicy :=
  {| tick_settings := tick_settings SchedulingPolicy_base;
     schedule := fun context =>
       Some {| launch := false; cursor := None; explicit_partition_keys := None |};
     react_to_downstream_request := fun context asset_partition =>
       Some {| include := false |};
     react_to_upstream_request :=
       react_to_upstream_request SchedulingPolicy_base |}.

(** Modelled from the spec: the tick that drives the per-asset policies and
    builds run requests from their decisions is not among the sources. An
    asset without a policy of its own gets the default one. An asset is
    launched when its policy's [schedule] says [launch]; the request then
    reaches each neighbour whose reaction has [include] set (a parent reacts
    to a downstream request, a child to an upstream one). One run request is
    built per launched asset and per explicit partition key, or a single
    unpartitioned one without explicit keys. *)
Definition policy_for (policies : AssetKey -> option SchedulingPolicy)
    (key : AssetKey) : SchedulingPolicy :=
  default DefaultSchedulingPolicy (policies key).

(** Modelled from the spec: a reaction propagates the request when it is
    there and has [include] set. *)
Definition reaction_includes (r : option RequestReaction) : bool :=
  match r with
  | Some reaction => include reaction
  | None => false
  end.

(** Modelled from the spec: the downstream neighbours of an asset. *)
Definition child_keys (graph : AssetGraph) (key : AssetKey) : list AssetKey :=
  node_key <$> filter (fun n => key ∈ parent_keys n) (asset_nodes graph).

(** Modelled from the spec: the run requests one asset contributes to a
    tick. *)
Definition pulse_policy_on_asset
    (policies : AssetKey -> option SchedulingPolicy)
    (context_for : AssetKey -> SchedulingExecutionContext)
    (graph : AssetGraph) (node : AssetNode) : list RunRequest :=
  let key := node_key node in
  match schedule (policy_for policies key) (context_for key) with
  | None => []
  | Some result =>
      if launch result then
        let parents :=
          filter (fun p => reaction_includes
                    (react_to_downstream_request (policy_for policies p)
                       (context_for p) (key, None)) = true)
                 (parent_keys node) in
        let children :=
          filter (fun c => reaction_includes
                    (react_to_upstream_request (policy_for policies c)
                       (context_for c) (key, None)) = true)
                 (child_keys graph key) in
        let selection := key :: parents ++ children in
        match explicit_partition_keys result with
        | None => [ {| asset_selection_of_request := selection;
                       partition_key := None;
                       request_tags := [] |} ]
        | Some keys =>
            (fun pk => {| asset_selection_of_request := selection;
                          partition_key := Some pk;
                          request_tags := [] |}) <$> elements keys
        end
      else []
  end.

(** Modelled from the spec: the [launch] decision of every asset of the
    graph, in graph order. *)
Definition launch_decisions
    (policies : AssetKey -> option SchedulingPolicy)
    (context_for : AssetKey -> SchedulingExecutionContext)
    (graph : AssetGraph) : list (option bool) :=
  (fun n => launch <$> schedule (policy_for policies (node_key n))
                         (context_for (node_key n))) <$> asset_nodes graph.

(** Modelled from the spec: the run requests of a tick over the graph. *)
Definition tick_run_requests
    (policies : AssetKey -> option SchedulingPolicy)
    (context_for : AssetKey -> SchedulingExecutionContext)
    (graph : AssetGraph) : list RunRequest :=
  mjoin (pulse_policy_on_asset policies context_for graph <$> asset_nodes graph).

(** Scenario 1: asset A depends on asset B, neither has a condition or a
    policy of its own. *)
Definition scenario_1_graph : AssetGraph :=
  {| asset_nodes :=
       [ {| node_key := ["B"]; parent_keys := [];
            partition_keys := None; automation_condition := None |};
         {| node_key := ["A"]; parent_keys := [["B"]];
            partition_keys := None; automation_condition := None |} ] |}.

Definition no_policies : AssetKey -> option SchedulingPolicy := fun _ => None.

End ReactiveScheduling.

(** ** [dagster._core.definitions.automation_condition_sensor_definition] *)

Module AutomationSensor.

(** *** The wall clock

    [get_current_datetime()] reads the clock: the state is the sequence of
    answers the clock gives and the number of reads made so far. *)
Record Clock : Type := mkClock {
  readings : nat -> datetime;
  reads : nat
}.

Definition next_reading (c : Clock) : datetime := readings c (reads c).

Definition get_current_datetime : M Clock datetime :=
  fun c => (Returns (next_reading c),
            {| readings := readings c; reads := S (reads c) |}).

(** *** [dagster._check]

    The check helpers are not among the sources; they are taken by their
    contract: [not_none] raises on [None], [opt_bool_param] and
    [opt_inst_param] let [None] through (as the default) and raise on a
    value of another type, [param_invariant] raises on a false condition.
    [PyValue] holds the values of a keyword argument as far as these checks
    tell them apart. *)

Inductive PyValue : Type :=
  | PyNone
  | PyBool (b : bool)
  | PyInt (z : Z)
  | PyStr (s : string)
  | PyCondition (c : AutomationCondition).

Definition not_none {S A} (obj : option A) : M S A :=
  match obj with
  | Some a => ret a
  | None => raise CheckError
  end.

Definition opt_bool_param {S} (obj : option PyValue) (default : bool) : M S bool :=
  match obj with
  | None | Some PyNone => ret default
  | Some (PyBool b) => ret b
  | Some _ => raise ParameterCheckError
  end.

(** [opt_inst_param] at the class [AutomationCondition]. *)
Definition opt_inst_param {S} (obj : option PyValue)
  : M S (option AutomationCondition) :=
  match obj with
  | None | Some PyNone => ret None
  | Some (PyCondition c) => ret (Some c)
  | Some _ => raise ParameterCheckError
  end.

Definition param_invariant {S} (condition : bool) : M S unit :=
  if condition then ret tt else raise ParameterCheckError.

Definition of_outcome {S A} (o : Outcome A) : M S A := fun s => (o, s).

(** *** Evaluation results and cursors *)

Record AutomationConditionCursor : Type := mkAutomationConditionCursor {
  key : AssetKey;
  result_value_hash : string;
  node_state : string
}.

Record AutomationConditionEvaluation : Type := mkAutomationConditionEvaluation {
  evaluated_key : AssetKey;
  num_requested : nat;
  summary : string
}.

(** Modelled from the spec: the per-asset result of a tick (its class is not
    among the sources) holds the true-set, its content hash, the state the
    asset's new sub-cursor carries, and the serializable evaluation record.
    The new sub-cursor is the asset's: it is keyed by the asset and stores
    the hash of the true-set. *)
Record AutomationResult : Type := mkAutomationResult {
  asset_key : AssetKey;
  value_hash : string;
  true_slice : gset AssetKeyPartitionKey;
  new_node_state : string;
  serializable_evaluation : AutomationConditionEvaluation
}.

(** Modelled from the spec: [true_slice.is_empty]. *)
Definition is_empty (slice : gset AssetKeyPartitionKey) : bool :=
  bool_decide (slice = ∅).

(** Modelled from the spec: [result.get_new_cursor()], the new sub-cursor
    of the asset of the result. *)
Definition get_new_cursor (result : AutomationResult) : AutomationConditionCursor :=
  {| key := asset_key result;
     result_value_hash := value_hash result;
     node_state := new_node_state result |}.

(** Modelled from the spec: the Cursor (class [AssetDaemonCursor], not among
    the sources) is the evaluation id, the mapping from asset key to the
    sub-cursor of its previous result, and the record of the asset keys
    newly requested for observation. Of the fields the specification lists,
    the evaluation timestamp is left out: the tick reads no timestamp from a
    cursor, and the class keeps none of its own. *)
Record AssetDaemonCursor : Type := mkAssetDaemonCursor {
  evaluation_id : Z;
  condition_cursors : gmap (list string) AutomationConditionCursor;
  newly_observe_requested : list AssetKey
}.

(** Modelled from the spec: the empty initial cursor. *)
Definition empty_cursor : AssetDaemonCursor :=
  {| evaluation_id := 0;
     condition_cursors := ∅;
     newly_observe_requested := [] |}.

(** Modelled from the spec: the previous sub-cursor of an asset, absent on
    its first-ever tick. *)
Definition get_previous_condition_cursor (self : AssetDaemonCursor)
    (k : AssetKey) : option AutomationConditionCursor :=
  condition_cursors self !! k.

(** Modelled from the spec: each sub-cursor of the list replaces the one
    stored under its key, in the order of the list. *)
Definition put_all (m : gmap (list string) AutomationConditionCursor)
    (cs : list AutomationConditionCursor)
  : gmap (list string) AutomationConditionCursor :=
  foldl (fun m c => <[key c := c]> m) m cs.

(** Modelled from the spec: [with_updates] replaces each asset's sub-cursor
    with its newly computed one; the assets without a new sub-cursor keep
    theirs. On the evaluation id and the timestamp the model goes by the
    call rather than by the words "bumps" and "stamps" of the
    specification: the evaluation id of the new cursor is the one handed
    over under the keyword [evaluation_id] (the method is given the id to
    store, it does not count), and the evaluation timestamp is the time of
    the observation requests handed over along with it, of which the cursor
    keeps the keys; the cursor has no timestamp of its own. *)
Definition with_updates (self : AssetDaemonCursor)
    (evaluation_id : Z) (evaluation_timestamp : Z)
    (newly_observe_requested_asset_keys : list AssetKey)
    (condition_cursors_arg : list AutomationConditionCursor) : AssetDaemonCursor :=
  {| evaluation_id := evaluation_id;
     condition_cursors :=
       put_all (condition_cursors self) condition_cursors_arg;
     newly_observe_requested := newly_observe_requested_asset_keys |}.

(** *** The objects the tick builds *)

Inductive AssetSelection : Type :=
  | AllSelection
  | KeysSelection (keys : list AssetKey)
  | GroupsSelection (groups : list string).

Record CachingStaleStatusResolver : Type := mkCachingStaleStatusResolver {
  resolver_instance : DagsterInstance;
  resolver_asset_graph : AssetGraph;
  instance_queryer : CachingInstanceQueryer
}.

Record TemporalContext : Type := mkTemporalContext {
  effective_dt : datetime;
  last_event_id : option Z
}.

Record AssetGraphView : Type := mkAssetGraphView {
  stale_resolver : CachingStaleStatusResolver;
  temporal_context : TemporalContext
}.

(** Modelled from the spec: the queryer a view hands out is the one its
    stale resolver was built on. *)
Definition get_inner_queryer_for_back_compat (view : AssetGraphView)
  : CachingInstanceQueryer :=
  instance_queryer (stale_resolver view).

Record CachingDataTimeResolver : Type := mkCachingDataTimeResolver {
  resolver_queryer : CachingInstanceQueryer
}.

Record AutomationConditionEvaluator : Type := mkAutomationConditionEvaluator {
  evaluator_asset_graph : AssetGraph;
  asset_keys : gset (list string);
  asset_graph_view : AssetGraphView;
  logger : Logger;
  data_time_resolver : CachingDataTimeResolver;
  evaluator_cursor : AssetDaemonCursor;
  respect_materialization_data_versions : bool;
  evaluator_run_tags : list (string * string);
  request_backfills : bool;
  evaluator_default_condition : option AutomationCondition
}.

(** The functions the sensor calls and that are not among the sources, taken
    as they are called: [AssetSelection.resolve],
    [AutomationConditionEvaluator.evaluate] (a failing storage query makes
    it raise), [build_run_requests], the codec of the serialized cursor (a
    serialized cursor opens with the character of its format version; the
    decoder of the current version raises on a string it cannot read),
    [check_valid_name] and [normalize_tags(...).tags]. *)
Class Collaborators : Type := mkCollaborators {
  resolve : AssetSelection -> AssetGraph -> gset (list string);
  evaluate :
    AutomationConditionEvaluator ->
    Outcome (list AutomationResult * gset AssetKeyPartitionKey);
  build_run_requests :
    gset AssetKeyPartitionKey -> AssetGraph -> list (string * string) ->
    list RunRequest;
  cursor_version : ascii;
  deserialize_cursor : string -> AssetGraph -> Outcome AssetDaemonCursor;
  serialize_cursor : AssetDaemonCursor -> string;
  check_valid_name : string -> Outcome string;
  normalize_tags : option (list (string * string)) -> Outcome (list (string * string))
}.

Section Sensor.

Context `{Collaborators}.

(** Modelled from the spec: reading the serialized cursor (function
    [asset_daemon_cursor_from_instigator_serialized_cursor], not among the
    sources). No cursor yet, or one of a foreign version, gives the empty
    initial cursor: that is the fallback of the specification. The fallback
    goes by the version character alone. A string of the current version is
    handed to the decoder, whose exception on a malformed string nothing
    catches; neither is the empty string caught, which has no version
    character to read. *)
Definition asset_daemon_cursor_from_instigator_serialized_cursor
    (serialized_cursor : option string) (graph : AssetGraph)
  : Outcome AssetDaemonCursor :=
  match serialized_cursor with
  | None => Returns empty_cursor
  | Some EmptyString => Raises IndexError
  | Some (String version payload as text) =>
      if Ascii.eqb version cursor_version
      then deserialize_cursor text graph
      else Returns empty_cursor
  end.

(** Modelled from the spec: writing the cursor out is the encoder of the
    codec. *)
Definition asset_daemon_cursor_to_instigator_serialized_cursor
    (c : AssetDaemonCursor) : string :=
  serialize_cursor c.

(** *** The sensor definition *)

Inductive SensorType : Type := AUTOMATION | AUTO_MATERIALIZE.

(** [evaluation_fn] is one of two callables: the partial application of
    [evaluate_automation_conditions] to the definition itself, or
    [not_supported]. *)
Inductive EvaluationFn : Type :=
  | partial_evaluate_automation_conditions
  | not_supported_fn.

Record AutomationConditionSensorDefinition : Type :=
  mkAutomationConditionSensorDefinition {
  name : string;
  _user_code : bool;
  _default_automation_condition : option AutomationCondition;
  _run_tags : list (string * string);
  job_name : option string;
  evaluation_fn : EvaluationFn;
  minimum_interval_seconds : option Z;
  description : option string;
  default_status : DefaultSensorStatus;
  asset_selection : AssetSelection
}.

Definition run_tags (self : AutomationConditionSensorDefinition) :=
  _run_tags self.

Definition default_automation_condition (self : AutomationConditionSensorDefinition) :=
  _default_automation_condition self.

Definition sensor_type (self : AutomationConditionSensorDefinition) : SensorType :=
  if _user_code self then AUTOMATION else AUTO_MATERIALIZE.

Record SensorEvaluationContext : Type := mkSensorEvaluationContext {
  repository_def : option RepositoryDefinition;
  instance : DagsterInstance;
  cursor : option string;
  log : Logger
}.

Record SensorResult : Type := mkSensorResult {
  run_requests : list RunRequest;
  result_cursor : string;
  automation_condition_evaluations : list AutomationConditionEvaluation
}.

(** *** The tick *)

(** The loop that keeps the evaluation records "where something changed". *)
Definition updated_evaluations_of (cursor : AssetDaemonCursor)
    (results : list AutomationResult) : list AutomationConditionEvaluation :=
  foldl
    (fun (updated_evaluations : list AutomationConditionEvaluation) result =>
       let previous_cursor :=
         get_previous_condition_cursor cursor (asset_key result) in
       if match previous_cursor with
          | None => true
          | Some previous =>
              negb (String.eqb (result_value_hash previous) (value_hash result))
              || negb (is_empty (true_slice result))
          end
       then (updated_evaluations ++ [serializable_evaluation result])%list
       else updated_evaluations)
    [] results.

(** The condition of the [if] in that loop, on its own. *)
Definition keeps_record (previous : AssetDaemonCursor) (result : AutomationResult)
  : bool :=
  match get_previous_condition_cursor previous (asset_key result) with
  | None => true
  | Some sub =>
      negb (String.eqb (result_value_hash sub) (value_hash result))
      || negb (is_empty (true_slice result))
  end.


(** The suppression rule in the words of the specification: the record of a
    result is left out when a previous sub-cursor exists for the asset, its
    stored hash is the hash of the result, and the true-set is empty. *)
Definition record_suppressed (previous : AssetDaemonCursor)
    (result : AutomationResult) : Prop :=
  exists sub,
    get_previous_condition_cursor previous (asset_key result) = Some sub
    /\ result_value_hash sub = value_hash result
    /\ true_slice result = ∅.

#[global] Instance record_suppressed_dec previous result :
  Decision (record_suppressed previous result).
Proof.
  unfold record_suppressed.
  destruct (get_previous_condition_cursor previous (asset_key result)) as [sub|].
  - destruct (decide (result_value_hash sub = value_hash result)) as [Hh|Hh].
    + destruct (decide (true_slice result = ∅)) as [He|He].
      * left. exists sub. auto.
      * right. intros (sub' & Hs & _ & Ht). auto.
    + right. intros (sub' & Hs & Hh' & _). congruence.
  - right. intros (sub' & Hs & _). discriminate.
Defined.

(** The local variables of [evaluate_automation_conditions] at its [return]. *)
Record TickLocals : Type := mkTickLocals {
  tick_asset_graph : AssetGraph;
  tick_instance_queryer : CachingInstanceQueryer;
  tick_cursor : AssetDaemonCursor;
  tick_results : list AutomationResult;
  tick_to_request : gset AssetKeyPartitionKey;
  tick_newly_observe_requested_asset_keys : list AssetKey;
  tick_new_cursor : AssetDaemonCursor;
  tick_run_requests : list RunRequest;
  tick_updated_evaluations : list AutomationConditionEvaluation
}.

(** The body of [evaluate_automation_conditions] up to its [return]. *)
Definition evaluate_automation_conditions_locals
    (context : SensorEvaluationContext)
    (sensor_def : AutomationConditionSensorDefinition) : M Clock TickLocals :=
  repository <- not_none (repository_def context) ;;
  let asset_graph := asset_graph repository in
  now <- get_current_datetime ;;
  let instance_queryer :=
    {| queryer_instance := instance context;
       queryer_asset_graph := asset_graph;
       evaluation_time := now;
       queryer_logger := log context |} in
  let asset_graph_view :=
    {| stale_resolver :=
         {| resolver_instance := instance context;
            resolver_asset_graph := asset_graph;
            instance_queryer := instance_queryer |};
       temporal_context :=
         {| effective_dt := evaluation_time instance_queryer;
            last_event_id := None |} |} in
  let data_time_resolver :=
    {| resolver_queryer := get_inner_queryer_for_back_compat asset_graph_view |} in
  cursor <-
    of_outcome
      (asset_daemon_cursor_from_instigator_serialized_cursor
         (cursor context) asset_graph) ;;
  let evaluator :=
    {| evaluator_asset_graph := asset_graph;
       asset_keys := resolve (asset_selection sensor_def) asset_graph;
       asset_graph_view := asset_graph_view;
       logger := log context;
       data_time_resolver := data_time_resolver;
       evaluator_cursor := cursor;
       respect_materialization_data_versions := true;
       evaluator_run_tags := [];
       request_backfills := da_request_backfills (instance context);
       evaluator_default_condition := default_automation_condition sensor_def |} in
  evaluated <- of_outcome (evaluate evaluator) ;;
  let results := fst evaluated in
  let to_request := snd evaluated in
  let newly_observe_requested_asset_keys : list AssetKey := [] in
  let new_cursor :=
    with_updates cursor
      (evaluation_id cursor)
      (timestamp (evaluation_time instance_queryer))
      newly_observe_requested_asset_keys
      (get_new_cursor <$> results) in
  let run_requests :=
    build_run_requests to_request asset_graph
      (auto_materialize_run_tags (instance context)) in
  let updated_evaluations := updated_evaluations_of cursor results in
  ret {| tick_asset_graph := asset_graph;
         tick_instance_queryer := instance_queryer;
         tick_cursor := cursor;
         tick_results := results;
         tick_to_request := to_request;
         tick_newly_observe_requested_asset_keys :=
           newly_observe_requested_asset_keys;
         tick_new_cursor := new_cursor;
         tick_run_requests := run_requests;
         tick_updated_evaluations := updated_evaluations |}.

Definition evaluate_automation_conditions
    (context : SensorEvaluationContext)
    (sensor_def : AutomationConditionSensorDefinition) : M Clock SensorResult :=
  locals <- evaluate_automation_conditions_locals context sensor_def ;;
  ret {| run_requests := tick_run_requests locals;
         result_cursor :=
           asset_daemon_cursor_to_instigator_serialized_cursor
             (tick_new_cursor locals);
         automation_condition_evaluations := tick_updated_evaluations locals |}.

Definition not_supported (context : SensorEvaluationContext) : M Clock SensorResult :=
  raise NotImplementedError.

(** Calling the stored [evaluation_fn] of a definition. *)
Definition call_evaluation_fn (self : AutomationConditionSensorDefinition)
    (context : SensorEvaluationContext) : M Clock SensorResult :=
  match evaluation_fn self with
  | partial_evaluate_automation_conditions =>
      evaluate_automation_conditions context self
  | not_supported_fn => not_supported context
  end.

(** *** [AutomationConditionSensorDefinition.__init__] *)

Record InitArgs : Type := mkInitArgs {
  arg_name : string;
  arg_asset_selection : AssetSelection;
  arg_run_tags : option (list (string * string));
  arg_default_status : DefaultSensorStatus;
  arg_minimum_interval_seconds : option Z;
  arg_description : option string;
  kwargs : gmap string PyValue
}.

Definition init {S} (args : InitArgs) : M S AutomationConditionSensorDefinition :=
  user_code <- opt_bool_param (kwargs args !! "user_code") false ;;
  default_condition <-
    opt_inst_param (kwargs args !! "default_automation_condition") ;;
  match default_condition with
  | Some _ => param_invariant user_code
  | None => ret tt
  end ;;
  tags <- of_outcome (normalize_tags (arg_run_tags args)) ;;
  valid_name <- of_outcome (check_valid_name (arg_name args)) ;;
  ret {| name := valid_name;
         _user_code := user_code;
         _default_automation_condition := default_condition;
         _run_tags := tags;
         job_name := None;
         evaluation_fn :=
           if user_code then partial_evaluate_automation_conditions
           else not_supported_fn;
         minimum_interval_seconds := arg_minimum_interval_seconds args;
         description := arg_description args;
         default_status := arg_default_status args;
         asset_selection := arg_asset_selection args |}.

End Sensor.

End AutomationSensor.

(** ** A small deployment

    Concrete collaborators on which the definitions above run: a selection
    resolves to the keys of the graph it names, the evaluator knows the one
    condition "missing" (true for an unpartitioned asset that has no
    materialization), every requested asset partition becomes a run request
    of its own, and the cursor codec writes a version tag followed by the
    evaluation id in unary; the decoder also reads the one cursor that the
    deployment has in store under a name. *)

Module Sample.

Import AutomationSensor.

Definition graph_keys (graph : AssetGraph) : list AssetKey :=
  node_key <$> asset_nodes graph.

Definition sample_resolve (selection : AssetSelection) (graph : AssetGraph)
  : gset (list string) :=
  match selection with
  | AllSelection => list_to_set (graph_keys graph)
  | KeysSelection keys =>
      list_to_set (filter (fun k => k ∈ graph_keys graph) keys)
  | GroupsSelection _ => ∅
  end.

Definition sample_result (ev : AutomationConditionEvaluator) (n : AssetNode)
  : AutomationResult :=
  let condition :=
    match automation_condition n with
    | Some c => Some c
    | None => evaluator_default_condition ev
    end in
  let instance := queryer_instance (resolver_queryer (data_time_resolver ev)) in
  let missing :=
    match condition with
    | Some (LeafCondition "missing") =>
        bool_decide ((node_key n, None) ∉ materialized instance)
    | _ => false
    end in
  {| asset_key := node_key n;
     value_hash := if missing then "1" else "0";
     true_slice := if missing then {[ (node_key n, None) ]} else ∅;
     new_node_state := EmptyString;
     serializable_evaluation :=
       {| evaluated_key := node_key n;
          num_requested := if missing then 1 else 0;
          summary := if missing then "missing" else EmptyString |} |}.

Definition sample_evaluate (ev : AutomationConditionEvaluator)
  : Outcome (list AutomationResult * gset AssetKeyPartitionKey) :=
  let results :=
    sample_result ev <$>
      filter (fun n => node_key n ∈ asset_keys ev)
             (asset_nodes (evaluator_asset_graph ev)) in
  Returns (results, ⋃ (true_slice <$> results)).

Definition sample_build_run_requests (asset_partitions : gset AssetKeyPartitionKey)
    (graph : AssetGraph) (tags : list (string * string)) : list RunRequest :=
  (fun ap : AssetKeyPartitionKey =>
     {| asset_selection_of_request := [ap.1];
        partition_key := ap.2;
        request_tags := tags |}) <$> elements asset_partitions.

Fixpoint unary (n : nat) : string :=
  match n with
  | O => EmptyString
  | S m => String "|"%char (unary m)
  end.

Fixpoint read_unary (text : string) : option nat :=
  match text with
  | EmptyString => Some O
  | String "|"%char rest => S <$> read_unary rest
  | String _ _ => None
  end.

Definition sample_serialize (c : AssetDaemonCursor) : string :=
  "v1:" ++ unary (Z.to_nat (evaluation_id c)).

(** The cursor in store: sub-cursors of the two assets of the sample graph
    and of an asset that has since left it. *)
Definition stored_cursor : AssetDaemonCursor :=
  {| evaluation_id := 7;
     condition_cursors :=
       {[ ["B"] := {| key := ["B"]; result_value_hash := "0";
                      node_state := "seen" |};
          ["A"] := {| key := ["A"]; result_value_hash := "1";
                      node_state := "seen" |};
          ["retired"] := {| key := ["retired"]; result_value_hash := "0";
                            node_state := "seen" |} ]};
     newly_observe_requested := [] |}.

Definition sample_deserialize (text : string) (graph : AssetGraph)
  : Outcome AssetDaemonCursor :=
  if String.eqb text "v1:stored" then Returns stored_cursor
  else
    match text with
    | String "v"%char (String "1"%char (String ":"%char rest)) =>
        match read_unary rest with
        | Some n => Returns {| evaluation_id := Z.of_nat n;
                               condition_cursors := ∅;
                               newly_observe_requested := [] |}
        | None => Raises ValueError
        end
    | _ => Raises ValueError
    end.

Definition sample_collaborators : Collaborators :=
  {| resolve := sample_resolve;
     evaluate := sample_evaluate;
     build_run_requests := sample_build_run_requests;
     cursor_version := "v"%char;
     deserialize_cursor := sample_deserialize;
     serialize_cursor := sample_serialize;
     check_valid_name := fun n =>
       if decide (n = EmptyString) then Raises DagsterInvalidDefinitionError else Returns n;
     normalize_tags := fun t => Returns (default [] t) |}.

Definition sample_graph : AssetGraph :=
  {| asset_nodes :=
       [ {| node_key := ["B"]; parent_keys := [];
            partition_keys := None;
            automation_condition := Some (LeafCondition "missing") |};
         {| node_key := ["A"]; parent_keys := [["B"]];
            partition_keys := None;
            automation_condition := Some (LeafCondition "missing") |} ] |}.

Definition sample_instance : DagsterInstance :=
  {| materialized := {[ (["B"], None) ]};
     in_flight := ∅;
     da_request_backfills := false;
     auto_materialize_run_tags := [("dagster/auto_materialize", "true")] |}.

Definition sample_context (serialized : option string) : SensorEvaluationContext :=
  {| repository_def := Some {| asset_graph := sample_graph |};
     instance := sample_instance;
     cursor := serialized;
     log := {| logger_name := "sensor" |} |}.

Definition sample_args (kw : gmap string PyValue) : InitArgs :=
  {| arg_name := "automation";
     arg_asset_selection := AllSelection;
     arg_run_tags := None;
     arg_default_status := STOPPED;
     arg_minimum_interval_seconds := None;
     arg_description := None;
     kwargs := kw |}.

Definition sample_sensor : AutomationConditionSensorDefinition :=
  {| name := "automation";
     _user_code := true;
     _default_automation_condition := None;
     _run_tags := [];
     job_name := None;
     evaluation_fn := partial_evaluate_automation_conditions;
     minimum_interval_seconds := None;
     description := None;
     default_status := STOPPED;
     asset_selection := AllSelection |}.

(** The sample context with no repository attached. *)
Definition detached_context : SensorEvaluationContext :=
  {| repository_def := None;
     instance := sample_instance;
     cursor := None;
     log := {| logger_name := "sensor" |} |}.

Definition noon : datetime :=
  {| posix_micros := 1700000000000000; tzname := "UTC" |}.

(** A clock that answers [noon] first and [noon] plus [step] microseconds
    at every later read. *)
Definition sample_clock (step : Z) : Clock :=
  {| readings := fun n =>
       match n with
       | O => noon
       | S _ => {| posix_micros := posix_micros noon + step; tzname := "UTC" |}
       end;
     reads := 0 |}.

(** A clock that answers [now] at every read. *)
Definition clock_at (now : datetime) : Clock :=
  {| readings := fun _ => now; reads := 0 |}.


(** The sample sensor ticking on the sample context. *)
Definition sample_tick (serialized : option string) (step : Z)
  : Outcome TickLocals * Clock :=
  @evaluate_automation_conditions_locals sample_collaborators
    (sample_context serialized) sample_sensor (sample_clock step).

End Sample.

(** ** Exceptions with a payload, and computations that only return or raise *)

(** What a [DagsterInvariantViolationError] of the code below says. *)
Inductive Violation : Type :=
  | BothHaveResource (first second : nat) (resource_key : string)
  | BothHaveLogger (first second : nat) (logger_key : string)
  | BothHaveExecutor (first : option nat) (second : nat)
  | CouldNotFindAsset (asset_key : list string)
  | DagsterHomeNotSet.

Inductive PyError : Type :=
  | Check (e : Exn)
  | AttributeError
  | KeyError (k : string)
  | DagsterInvariantViolationError (message : Violation).

(** [inl] raises, [inr] returns. *)
Definition Try (A : Type) : Type := (PyError + A)%type.

Definition try_bind {A B} (m : Try A) (k : A -> Try B) : Try B :=
  match m with
  | inl e => inl e
  | inr a => k a
  end.

Notation "x <-? m ;; k" := (try_bind m (fun x => k))
  (at level 100, m at next level, right associativity) : py_scope.

(** [check.invariant(condition, desc)]. *)
Definition invariant (condition : bool) : Try unit :=
  if condition then inr tt else inl (Check CheckError).

(** ** [dagster.core.storage.tags] *)

Module Tags.

Definition SYSTEM_TAG_PREFIX : string := "dagster/".

(** ['{prefix}name'.format(prefix=SYSTEM_TAG_PREFIX)]. *)
Definition SCHEDULE_NAME_TAG : string := SYSTEM_TAG_PREFIX ++ "schedule_name".

Definition BACKFILL_ID_TAG : string := SYSTEM_TAG_PREFIX ++ "backfill".

Definition PARTITION_NAME_TAG : string := SYSTEM_TAG_PREFIX ++ "partition".

Definition PARTITION_SET_TAG : string := SYSTEM_TAG_PREFIX ++ "partition_set".

#[local] Set Warnings "-register-all".

(** The Python values [check_tags] may be handed; a dict is the list of its
    items in insertion order. *)
Inductive PyObj : Type :=
  | ONone
  | OBool (b : bool)
  | OInt (z : Z)
  | OStr (s : string)
  | ODict (items : list (PyObj * PyObj)).

Definition is_str (o : PyObj) : bool :=
  match o with
  | OStr _ => true
  | _ => false
  end.

(** [check.opt_dict_param(obj, name, key_type=str, value_type=str)], by its
    contract: [None] gives the empty dict, a value that is not a dict raises
    the parameter check error, a key or value that is not a string raises
    the check error. *)
Definition opt_dict_param (obj : PyObj) : Try (list (PyObj * PyObj)) :=
  match obj with
  | ONone => inr []
  | ODict items =>
      if forallb (fun kv => is_str kv.1 && is_str kv.2) items
      then inr items
      else inl (Check CheckError)
  | _ => inl (Check ParameterCheckError)
  end.

(** [obj.keys()]: only a dict has the method. *)
Definition keys (obj : PyObj) : Try (list PyObj) :=
  match obj with
  | ODict items => inr (items.*1)
  | _ => inl AttributeError
  end.

(** [tag.startswith(prefix)]: only a string has the method. *)
Definition startswith (tag : PyObj) (prefix : string) : Try bool :=
  match tag with
  | OStr s => inr (String.prefix prefix s)
  | _ => inl AttributeError
  end.

Fixpoint check_each_tag (tags : list PyObj) : Try unit :=
  match tags with
  | [] => inr tt
  | tag :: rest =>
      reserved <-? startswith tag SYSTEM_TAG_PREFIX ;;
      _ <-? invariant (negb reserved) ;;
      check_each_tag rest
  end.

(** The checked dict [opt_dict_param] returns is dropped; the loop runs over
    [obj] itself. *)
Definition check_tags (obj : PyObj) (name : string) : Try unit :=
  _ <-? opt_dict_param obj ;;
  tags <-? keys obj ;;
  check_each_tag tags.

(** A user tag: both strings, the key outside the system prefix. *)
Definition user_tag (kv : PyObj * PyObj) : Prop :=
  exists k v, kv = (OStr k, OStr v) /\ String.prefix SYSTEM_TAG_PREFIX k = false.

Definition is_user_tag (kv : PyObj * PyObj) : bool :=
  match kv with
  | (OStr k, OStr _) => negb (String.prefix SYSTEM_TAG_PREFIX k)
  | _ => false
  end.

End Tags.

(** ** [dagster._core.definitions.definitions_class] *)

Module DefinitionsClass.

(** The objects a [Definitions] is made of are opaque here; executors are
    compared with [!=]. [keys_of] is [assets_def.keys]. *)
Class Objects : Type := mkObjects {
  Asset : Type;
  Schedule : Type;
  Sensor : Type;
  Job : Type;
  AssetCheck : Type;
  Resource : Type;
  LoggerDefinition : Type;
  Executor : Type;
  Executor_eq_dec : EqDecision Executor;
  AssetsDefinition : Type;
  keys_of : AssetsDefinition -> gset (list string);
  Repository : Type;
  PendingRepository : Type
}.

#[global] Existing Instance Executor_eq_dec.

Section WithObjects.

Context `{Objects}.

(** The [DefinitionsArgs] typed dict; a mapping is the list of its items in
    insertion order. *)
Record DefinitionsArgs : Type := mkDefinitionsArgs {
  assets : option (list Asset);
  schedules : option (list Schedule);
  sensors : option (list Sensor);
  jobs : option (list Job);
  resources : option (list (string * Resource));
  executor : option Executor;
  loggers : option (list (string * LoggerDefinition));
  asset_checks : option (list AssetCheck)
}.

Record Definitions : Type := mkDefinitions {
  _created_pending_or_normal_repo : Repository + PendingRepository;
  _original_args : DefinitionsArgs
}.

Definition original_args (self : Definitions) : DefinitionsArgs :=
  _original_args self.

(** The functions of the repository machinery that the class calls, taken
    as they are called: [_create_repository_using_definitions_args] at the
    singleton repository name (it builds the repository with the
    [@repository] decorator and the resource binding of other modules, which
    are not among the sources), [compute_repository_definition] of a
    pending repository, and the [assets_defs] of the asset graph of a
    repository. *)
Class Machinery : Type := mkMachinery {
  SINGLETON_REPOSITORY_NAME : string;
  _create_repository_using_definitions_args :
    string -> DefinitionsArgs -> Try (Repository + PendingRepository);
  compute_repository_definition : PendingRepository -> Try Repository;
  assets_defs : Repository -> list AssetsDefinition
}.

Context `{Machinery}.

(** [Definitions.__init__]; the [check] calls on the arguments hold by
    typing. *)
Definition init (args : DefinitionsArgs) : Try Definitions :=
  repo <-? _create_repository_using_definitions_args
             SINGLETON_REPOSITORY_NAME args ;;
  inr {| _created_pending_or_normal_repo := repo; _original_args := args |}.

Definition get_repository_def (self : Definitions) : Try Repository :=
  match _created_pending_or_normal_repo self with
  | inr pending => compute_repository_definition pending
  | inl repo => inr repo
  end.

Definition get_inner_repository_for_loading_process (self : Definitions)
  : Repository + PendingRepository :=
  _created_pending_or_normal_repo self.

(** *** [get_assets_def] *)

Inductive CoercibleToAssetKey : Type :=
  | OfAssetKey (path : list string)
  | OfStr (name : string)
  | OfSequence (path : list string).

(** [AssetKey.from_coercible]: a string is a path of one segment. *)
Definition from_coercible (key : CoercibleToAssetKey) : list string :=
  match key with
  | OfAssetKey path => path
  | OfStr name => [name]
  | OfSequence path => path
  end.

Fixpoint first_assets_def_with (asset_key : list string)
    (defs : list AssetsDefinition) : Try AssetsDefinition :=
  match defs with
  | [] => inl (DagsterInvariantViolationError (CouldNotFindAsset asset_key))
  | assets_def :: rest =>
      if bool_decide (asset_key ∈ keys_of assets_def) then inr assets_def
      else first_assets_def_with asset_key rest
  end.

Definition get_assets_def (self : Definitions) (key : CoercibleToAssetKey)
  : Try AssetsDefinition :=
  let asset_key := from_coercible key in
  repo <-? get_repository_def self ;;
  first_assets_def_with asset_key (assets_defs repo).

(** *** [merge] *)

(** The local variables of [merge]. *)
Record Merging : Type := mkMerging {
  merging_assets : list Asset;
  merging_schedules : list Schedule;
  merging_sensors : list Sensor;
  merging_jobs : list Job;
  merging_asset_checks : list AssetCheck;
  merging_resources : list (string * Resource);
  resource_key_indexes : gmap string nat;
  merging_loggers : list (string * LoggerDefinition);
  logger_key_indexes : gmap string nat;
  merging_executor : option Executor;
  executor_index : option nat
}.

Definition merge_start : Merging :=
  {| merging_assets := [];
     merging_schedules := [];
     merging_sensors := [];
     merging_jobs := [];
     merging_asset_checks := [];
     merging_resources := [];
     resource_key_indexes := ∅;
     merging_loggers := [];
     logger_key_indexes := ∅;
     merging_executor := None;
     executor_index := None |}.

(** [key_indexes[key]]. *)
Definition index_of (key_indexes : gmap string nat) (key : string) : Try nat :=
  match key_indexes !! key with
  | Some i => inr i
  | None => inl (KeyError key)
  end.

(** The loop over the items of one mapping; it is written out twice in
    [merge], for the resources and for the loggers. *)
Fixpoint merge_items {V} (both_have : nat -> nat -> string -> Violation)
    (i : nat) (items : list (string * V))
    (merged : list (string * V)) (key_indexes : gmap string nat)
  : Try (list (string * V) * gmap string nat) :=
  match items with
  | [] => inr (merged, key_indexes)
  | (key, value) :: rest =>
      if bool_decide (key ∈ merged.*1) then
        first <-? index_of key_indexes key ;;
        inl (DagsterInvariantViolationError (both_have first i key))
      else
        merge_items both_have i rest
          (merged ++ [(key, value)])%list (<[key := i]> key_indexes)
  end.

(** The body of the loop of [merge] for the definitions object at index
    [i]. *)
Definition merge_one (i : nat) (def_set : Definitions) (m : Merging)
  : Try Merging :=
  let args := original_args def_set in
  let assets' := (merging_assets m ++ default [] (assets args))%list in
  let asset_checks' :=
    (merging_asset_checks m ++ default [] (asset_checks args))%list in
  let schedules' := (merging_schedules m ++ default [] (schedules args))%list in
  let sensors' := (merging_sensors m ++ default [] (sensors args))%list in
  let jobs' := (merging_jobs m ++ default [] (jobs args))%list in
  r <-? merge_items BothHaveResource i (default [] (resources args))
          (merging_resources m) (resource_key_indexes m) ;;
  l <-? merge_items BothHaveLogger i (default [] (loggers args))
          (merging_loggers m) (logger_key_indexes m) ;;
  e <-? match executor args with
        | Some theirs =>
            if bool_decide (merging_executor m <> None)
               && bool_decide (merging_executor m <> Some theirs)
            then inl (DagsterInvariantViolationError
                        (BothHaveExecutor (executor_index m) i))
            else inr (Some theirs, Some i)
        | None => inr (merging_executor m, executor_index m)
        end ;;
  inr {| merging_assets := assets';
         merging_schedules := schedules';
         merging_sensors := sensors';
         merging_jobs := jobs';
         merging_asset_checks := asset_checks';
         merging_resources := r.1;
         resource_key_indexes := r.2;
         merging_loggers := l.1;
         logger_key_indexes := l.2;
         merging_executor := e.1;
         executor_index := e.2 |}.

(** [for i, def_set in enumerate(def_sets)], from index [i] on. *)
Fixpoint merge_loop (i : nat) (def_sets : list Definitions) (m : Merging)
  : Try Merging :=
  match def_sets with
  | [] => inr m
  | def_set :: rest =>
      m' <-? merge_one i def_set m ;;
      merge_loop (S i) rest m'
  end.

(** The arguments [merge] hands to the constructor. *)
Definition merged_args (m : Merging) : DefinitionsArgs :=
  {| assets := Some (merging_assets m);
     schedules := Some (merging_schedules m);
     sensors := Some (merging_sensors m);
     jobs := Some (merging_jobs m);
     resources := Some (merging_resources m);
     executor := merging_executor m;
     loggers := Some (merging_loggers m);
     asset_checks := Some (merging_asset_checks m) |}.

(** [check.sequence_param(def_sets, ...)] holds by typing. *)
Definition merge (def_sets : list Definitions) : Try Definitions :=
  m <-? merge_loop 0 def_sets merge_start ;;
  init (merged_args m).

(** *** The union of definitions objects, as the docstring of [merge] has it *)

Definition all_of {A} (field : DefinitionsArgs -> option (list A))
    (def_sets : list Definitions) : list A :=
  mjoin ((fun d => default [] (field (original_args d))) <$> def_sets).

Definition executors_of (def_sets : list Definitions) : list Executor :=
  omap (fun d => executor (original_args d)) def_sets.

Definition union_args (def_sets : list Definitions) : DefinitionsArgs :=
  {| assets := Some (all_of assets def_sets);
     schedules := Some (all_of schedules def_sets);
     sensors := Some (all_of sensors def_sets);
     jobs := Some (all_of jobs def_sets);
     resources := Some (all_of resources def_sets);
     executor := last (executors_of def_sets);
     loggers := Some (all_of loggers def_sets);
     asset_checks := Some (all_of asset_checks def_sets) |}.

(** Definitions objects can be merged when no resource key and no logger
    key is given twice and all executors given are the same. *)
Definition compatible (def_sets : list Definitions) : Prop :=
  NoDup ((all_of resources def_sets).*1)
  /\ NoDup ((all_of loggers def_sets).*1)
  /\ forall e1 e2, e1 ∈ executors_of def_sets -> e2 ∈ executors_of def_sets ->
       e1 = e2.

(** The keys a definitions object gives for a mapping argument. *)
Definition keys_in {V} (field : DefinitionsArgs -> option (list (string * V)))
    (d : Definitions) : list string :=
  (default [] (field (original_args d))).*1.

(** What a violation raised by [merge] says, read against the definitions
    objects merged: the two indexes name objects of the list, in order, that
    both give the key (or, under one index, an object that gives it twice),
    or that give two different executors. *)
Definition accurate (def_sets : list Definitions) (v : Violation) : Prop :=
  match v with
  | BothHaveResource j i k =>
      exists dj di,
        def_sets !! j = Some dj /\ def_sets !! i = Some di /\ j <= i
        /\ k ∈ keys_in resources dj /\ k ∈ keys_in resources di
        /\ (j = i -> ~ NoDup (keys_in resources di))
  | BothHaveLogger j i k =>
      exists dj di,
        def_sets !! j = Some dj /\ def_sets !! i = Some di /\ j <= i
        /\ k ∈ keys_in loggers dj /\ k ∈ keys_in loggers di
        /\ (j = i -> ~ NoDup (keys_in loggers di))
  | BothHaveExecutor first i =>
      exists j dj di ej ei,
        first = Some j /\ j < i
        /\ def_sets !! j = Some dj /\ def_sets !! i = Some di
        /\ executor (original_args dj) = Some ej
        /\ executor (original_args di) = Some ei
        /\ ej <> ei
  | _ => False
  end.

(** What the local variables of [merge] hold once the definitions objects
    [done] have been gone through. *)
Record merge_invariant (done : list Definitions) (m : Merging) : Prop :=
  mkMergeInvariant {
  inv_assets : merging_assets m = all_of assets done;
  inv_schedules : merging_schedules m = all_of schedules done;
  inv_sensors : merging_sensors m = all_of sensors done;
  inv_jobs : merging_jobs m = all_of jobs done;
  inv_asset_checks : merging_asset_checks m = all_of asset_checks done;
  inv_resources : merging_resources m = all_of resources done;
  inv_resources_nodup : NoDup ((merging_resources m).*1);
  inv_resources_dom : forall k,
    k ∈ (merging_resources m).*1 -> is_Some (resource_key_indexes m !! k);
  inv_resources_index : forall k j,
    resource_key_indexes m !! k = Some j ->
    exists d, done !! j = Some d /\ k ∈ keys_in resources d;
  inv_loggers : merging_loggers m = all_of loggers done;
  inv_loggers_nodup : NoDup ((merging_loggers m).*1);
  inv_loggers_dom : forall k,
    k ∈ (merging_loggers m).*1 -> is_Some (logger_key_indexes m !! k);
  inv_loggers_index : forall k j,
    logger_key_indexes m !! k = Some j ->
    exists d, done !! j = Some d /\ k ∈ keys_in loggers d;
  inv_executor : merging_executor m = last (executors_of done);
  inv_executors_same : forall e,
    e ∈ executors_of done -> merging_executor m = Some e;
  inv_executor_index : forall e,
    merging_executor m = Some e ->
    exists j d, executor_index m = Some j /\ done !! j = Some d
                /\ executor (original_args d) = Some e
}.

End WithObjects.

End DefinitionsClass.

(** ** A small code location

    Concrete objects on which the definitions class runs: every object is
    its name, an assets definition is a name with the keys it holds, and a
    repository is the list of its assets definitions. *)

Module DefinitionsSample.

Import DefinitionsClass.

Definition sample_objects : Objects :=
  {| Asset := string * list (list string);
     Schedule := string;
     Sensor := string;
     Job := string;
     AssetCheck := string;
     Resource := string;
     LoggerDefinition := string;
     Executor := string;
     Executor_eq_dec := _;
     AssetsDefinition := string * list (list string);
     keys_of := fun d => list_to_set d.2;
     Repository := list (string * list (list string));
     PendingRepository := list (string * list (list string)) |}.

Definition sample_machinery : @Machinery sample_objects :=
  {| SINGLETON_REPOSITORY_NAME := "__repository__";
     _create_repository_using_definitions_args := fun name args =>
       inr (inl (default [] (@assets sample_objects args)));
     compute_repository_definition := fun pending => inr pending;
     assets_defs := fun repo => repo |}.

Definition sample_definitions
    (its_assets : list (string * list (list string)))
    (its_resources : list (string * string))
    (its_executor : option string) : @Definitions sample_objects :=
  {| _created_pending_or_normal_repo :=
       inl (its_assets : @Repository sample_objects);
     _original_args :=
       {| assets := Some (its_assets : list (@Asset sample_objects));
          schedules := None;
          sensors := None;
          jobs := None;
          resources :=
            Some (its_resources : list (string * @Resource sample_objects));
          executor := (its_executor : option (@Executor sample_objects));
          loggers := None;
          asset_checks := None |} |}.

Definition defs_raw : @Definitions sample_objects :=
  sample_definitions
    [("raw", [["raw"; "customers"]; ["raw"; "orders"]])]
    [("io_manager", "s3")] None.

Definition defs_marts : @Definitions sample_objects :=
  sample_definitions
    [("marts", [["orders"]; ["customers"]])]
    [("io_manager", "fs"); ("warehouse", "duckdb")] (Some "in_process").

Definition defs_reports : @Definitions sample_objects :=
  sample_definitions
    [("reports", [["customers"]; ["weekly"]])]
    [("mailer", "smtp")] (Some "in_process").

End DefinitionsSample.

(** ** [dagster.core.instance]: where an instance comes from *)

Module InstanceHome.

(** The storages, the launcher and the instance reference are opaque. Of the
    code that is not among the sources, the constructors and functions the
    instance calls are taken as they are called: [os.path.expanduser], the
    name of the n-th temporary directory the process creates,
    [LocalArtifactStorage(dir)], [InMemoryRunStorage()],
    [InMemoryEventLogStorage()], [NoOpComputeLogManager(dir)],
    [compute_logs_directory], [InstanceRef.from_dir] (with its optional
    config filename and overrides) and the properties of an instance
    reference, each of which builds an object from configuration and may
    raise. *)
Class Parts : Type := mkParts {
  LocalArtifactStorage : Type;
  RunStorageObject : Type;
  EventLogStorage : Type;
  ComputeLogManager : Type;
  RunLauncher : Type;
  InstanceRef : Type;
  Overrides : Type;
  expanduser : string -> string;
  TemporaryDirectory_name : nat -> string;
  new_LocalArtifactStorage : string -> LocalArtifactStorage;
  new_InMemoryRunStorage : RunStorageObject;
  new_InMemoryEventLogStorage : EventLogStorage;
  new_NoOpComputeLogManager : string -> ComputeLogManager;
  compute_logs_directory : string -> string;
  DAGSTER_CONFIG_YAML_FILENAME : string;
  from_dir : string -> option string -> option Overrides -> Try InstanceRef;
  ref_local_artifact_storage : InstanceRef -> Try LocalArtifactStorage;
  ref_run_storage : InstanceRef -> Try RunStorageObject;
  ref_event_storage : InstanceRef -> Try EventLogStorage;
  ref_compute_log_manager : InstanceRef -> Try ComputeLogManager;
  ref_run_launcher : InstanceRef -> Try (option RunLauncher);
  ref_dagit_settings : InstanceRef -> Try (option (list (string * string)))
}.

Inductive InstanceType : Type := PERSISTENT | EPHEMERAL.

#[global] Instance InstanceType_eq_dec : EqDecision InstanceType.
Proof. solve_decision. Defined.

Section WithParts.

Context `{Parts}.

(** The attributes [__init__] sets, but for the table of event listeners
    (empty at construction). *)
Record DagsterInstance : Type := mkDagsterInstance {
  _instance_type : InstanceType;
  _local_artifact_storage : LocalArtifactStorage;
  _run_storage : RunStorageObject;
  _event_storage : EventLogStorage;
  _compute_log_manager : ComputeLogManager;
  _run_launcher : option RunLauncher;
  _dagit_settings : list (string * string);
  _ref : option InstanceRef
}.

(** What of the process the code reads and writes: the value of the
    environment variable [DAGSTER_HOME], the class attribute
    [_PROCESS_TEMPDIR] (the number of the temporary directory it holds), and
    how many temporary directories the process has created. *)
Record Process : Type := mkProcess {
  DAGSTER_HOME : option string;
  _PROCESS_TEMPDIR : option nat;
  tempdirs_created : nat
}.

(** A computation that reads and writes the process and returns or raises. *)
Definition Proc (A : Type) : Type := Process -> Try A * Process.

Definition proc_bind {A B} (m : Proc A) (k : A -> Proc B) : Proc B :=
  fun p =>
    match m p with
    | (inr a, p') => k a p'
    | (inl e, p') => (inl e, p')
    end.

Definition proc_of {A} (t : Try A) : Proc A := fun p => (t, p).

(** [bool(os.getenv('DAGSTER_HOME'))]: unset and empty are both false. *)
Definition _is_dagster_home_set : Proc bool :=
  fun p =>
    (inr match DAGSTER_HOME p with
         | None | Some EmptyString => false
         | Some _ => true
         end, p).

Definition _dagster_home : Proc string :=
  fun p =>
    match DAGSTER_HOME p with
    | None | Some EmptyString =>
        (inl (DagsterInvariantViolationError DagsterHomeNotSet), p)
    | Some dagster_home_path => (inr (expanduser dagster_home_path), p)
    end.

(** [check.opt_dict_param(dagit_settings, 'dagit_settings')] turns [None]
    into the empty dict; the other [check] calls hold by typing. *)
Definition init (instance_type : InstanceType)
    (local_artifact_storage : LocalArtifactStorage)
    (run_storage : RunStorageObject) (event_storage : EventLogStorage)
    (compute_log_manager : ComputeLogManager)
    (run_launcher : option RunLauncher)
    (dagit_settings : option (list (string * string)))
    (ref : option InstanceRef) : DagsterInstance :=
  {| _instance_type := instance_type;
     _local_artifact_storage := local_artifact_storage;
     _run_storage := run_storage;
     _event_storage := event_storage;
     _compute_log_manager := compute_log_manager;
     _run_launcher := run_launcher;
     _dagit_settings := default [] dagit_settings;
     _ref := ref |}.

Definition temp_storage : Proc string :=
  fun p =>
    match _PROCESS_TEMPDIR p with
    | None =>
        let created := tempdirs_created p in
        (inr (TemporaryDirectory_name created),
         {| DAGSTER_HOME := DAGSTER_HOME p;
            _PROCESS_TEMPDIR := Some created;
            tempdirs_created := S created |})
    | Some held => (inr (TemporaryDirectory_name held), p)
    end.

Definition ephemeral (tempdir : option string) : Proc DagsterInstance :=
  proc_bind
    (match tempdir with
     | None => temp_storage
     | Some dir => proc_of (inr dir)
     end)
    (fun tempdir =>
       proc_of (inr (init EPHEMERAL
                       (new_LocalArtifactStorage tempdir)
                       new_InMemoryRunStorage
                       new_InMemoryEventLogStorage
                       (new_NoOpComputeLogManager (compute_logs_directory tempdir))
                       None None None))).

Definition from_ref (instance_ref : InstanceRef) : Try DagsterInstance :=
  local_artifact_storage <-? ref_local_artifact_storage instance_ref ;;
  run_storage <-? ref_run_storage instance_ref ;;
  event_storage <-? ref_event_storage instance_ref ;;
  compute_log_manager <-? ref_compute_log_manager instance_ref ;;
  run_launcher <-? ref_run_launcher instance_ref ;;
  dagit_settings <-? ref_dagit_settings instance_ref ;;
  inr (init PERSISTENT local_artifact_storage run_storage event_storage
         compute_log_manager run_launcher dagit_settings (Some instance_ref)).

Definition from_config (config_dir : string) (config_filename : string)
  : Try DagsterInstance :=
  instance_ref <-? from_dir config_dir (Some config_filename) None ;;
  from_ref instance_ref.

Definition local_temp (tempdir : option string) (overrides : option Overrides)
  : Proc DagsterInstance :=
  proc_bind
    (match tempdir with
     | None => temp_storage
     | Some dir => proc_of (inr dir)
     end)
    (fun tempdir =>
       proc_of (instance_ref <-? from_dir tempdir None overrides ;;
                from_ref instance_ref)).

Definition get (fallback_storage : option string) : Proc DagsterInstance :=
  proc_bind _is_dagster_home_set (fun home_set =>
    if home_set : bool then
      proc_bind _dagster_home (fun home =>
        proc_of (from_config home DAGSTER_CONFIG_YAML_FILENAME))
    else
      match fallback_storage with
      | Some dir => proc_of (from_config dir DAGSTER_CONFIG_YAML_FILENAME)
      | None => ephemeral fallback_storage
      end).

Definition is_persistent (self : DagsterInstance) : bool :=
  bool_decide (_instance_type self = PERSISTENT).

Definition is_ephemeral (self : DagsterInstance) : bool :=
  bool_decide (_instance_type self = EPHEMERAL).

(** [check.failed] raises the check error. *)
Definition get_ref (self : DagsterInstance) : Try InstanceRef :=
  match _ref self with
  | Some ref => inr ref
  | None => inl (Check CheckError)
  end.

(** An empty dict is falsy, and then the empty dict is returned all the
    same. *)
Definition dagit_settings (self : DagsterInstance) : list (string * string) :=
  match _dagit_settings self with
  | [] => []
  | settings => settings
  end.

End WithParts.

(** A process whose parts are plain strings: a storage is the directory it
    sits in, an instance reference is its configuration directory. *)
Definition sample_parts : Parts :=
  {| LocalArtifactStorage := string;
     RunStorageObject := string;
     EventLogStorage := string;
     ComputeLogManager := string;
     RunLauncher := string;
     InstanceRef := string;
     Overrides := string;
     expanduser := fun path => path;
     TemporaryDirectory_name := fun n => "/tmp/dagster" ++ String.concat EmptyString (replicate n "x");
     new_LocalArtifactStorage := fun dir => dir;
     new_InMemoryRunStorage := "memory";
     new_InMemoryEventLogStorage := "memory";
     new_NoOpComputeLogManager := fun dir => dir;
     compute_logs_directory := fun dir => dir ++ "/compute_logs";
     DAGSTER_CONFIG_YAML_FILENAME := "dagster.yaml";
     from_dir := fun dir _ _ =>
       if decide (dir = EmptyString) then inl (KeyError "config") else inr dir;
     ref_local_artifact_storage := fun ref => inr ref;
     ref_run_storage := fun ref => inr (ref ++ "/runs");
     ref_event_storage := fun ref => inr (ref ++ "/events");
     ref_compute_log_manager := fun ref => inr (ref ++ "/compute_logs");
     ref_run_launcher := fun _ => inr None;
     ref_dagit_settings := fun _ => inr None |}.

Definition fresh_process (home : option string) : Process :=
  {| DAGSTER_HOME := home; _PROCESS_TEMPDIR := None; tempdirs_created := 0 |}.

End InstanceHome.

(** ** The evaluator of a tick, on its own *)

Module AutomationSensorParts.

Import AutomationSensor.

Section Parts.

Context `{Collaborators}.

(** The queryer the tick builds from the context, the graph and the clock
    reading. *)
Definition queryer_of (context : SensorEvaluationContext)
    (asset_graph : AssetGraph) (now : datetime) : CachingInstanceQueryer :=
  {| queryer_instance := instance context;
     queryer_asset_graph := asset_graph;
     evaluation_time := now;
     queryer_logger := log context |}.

(** The evaluator the tick builds and runs, once the previous cursor is
    read. *)
Definition evaluator_of (context : SensorEvaluationContext)
    (sensor_def : AutomationConditionSensorDefinition)
    (asset_graph : AssetGraph) (now : datetime)
    (previous : AssetDaemonCursor) : AutomationConditionEvaluator :=
  let instance_queryer := queryer_of context asset_graph now in
  let asset_graph_view :=
    {| stale_resolver :=
         {| resolver_instance := instance context;
            resolver_asset_graph := asset_graph;
            instance_queryer := instance_queryer |};
       temporal_context :=
         {| effective_dt := evaluation_time instance_queryer;
            last_event_id := None |} |} in
  {| evaluator_asset_graph := asset_graph;
     asset_keys := resolve (asset_selection sensor_def) asset_graph;
     asset_graph_view := asset_graph_view;
     logger := log context;
     data_time_resolver :=
       {| resolver_queryer := get_inner_queryer_for_back_compat asset_graph_view |};
     evaluator_cursor := previous;
     respect_materialization_data_versions := true;
     evaluator_run_tags := [];
     request_backfills := da_request_backfills (instance context);
     evaluator_default_condition := default_automation_condition sensor_def |}.

(** The clock after one read. *)
Definition read_once (c : Clock) : Clock :=
  {| readings := readings c; reads := S (reads c) |}.

End Parts.

End AutomationSensorParts.

(** * Properties *)

(** ** Run creation *)

Module InstanceSpec.

Import Instance.

Create HintDb run_storage.

#[local] Hint Unfold create_run get_or_create_run has_run get_run_by_id add_run
  storage_has_run storage_get_run_by_id storage_add_run
  interleave quiescent bind ret raise try_except : run_storage.

Ltac run_storage_step := autounfold with run_storage; simpl.

Lemma bool_decide_is_Some_lookup (rs : gmap string PipelineRun) rid :
  bool_decide (is_Some (rs !! rid))
  = match rs !! rid with Some _ => true | None => false end.
Proof.
  destruct (rs !! rid) eqn:E.
  - apply bool_decide_eq_true. eauto.
  - apply bool_decide_eq_false. intros [x Hx]. discriminate.
Qed.

(** C10: on a storage nobody else is writing, [create_run] of a run whose id
    is present raises [DagsterRunAlreadyExists] and leaves the storage as it
    was; of a run whose id is absent, it stores the run under its id and
    returns it. *)
Theorem create_run_present_or_absent
    (rs : gmap string PipelineRun) (pipeline_run : PipelineRun) :
  (is_Some (rs !! run_id pipeline_run) ->
     create_run pipeline_run (quiescent rs)
     = (Raises DagsterRunAlreadyExists, quiescent rs))
  /\ (rs !! run_id pipeline_run = None ->
     create_run pipeline_run (quiescent rs)
     = (Returns pipeline_run,
        quiescent (<[run_id pipeline_run := pipeline_run]> rs))).
Proof.
  split.
  - intros [stored Hstored]. run_storage_step.
    rewrite bool_decide_is_Some_lookup, Hstored. reflexivity.
  - intros Habsent. run_storage_step.
    rewrite bool_decide_is_Some_lookup, Habsent. simpl.
    rewrite Habsent. reflexivity.
Qed.

Lemma create_run_present_or_absent_witness :
  create_run run_a (quiescent {[ "r" := run_b ]})
  = (Raises DagsterRunAlreadyExists, quiescent {[ "r" := run_b ]})
  /\ create_run run_a (quiescent ∅)
     = (Returns run_a, quiescent (<["r" := run_a]> ∅)).
Proof.
  split.
  - apply (proj1 (create_run_present_or_absent {[ "r" := run_b ]} run_a)).
    exists run_b. reflexivity.
  - apply (proj2 (create_run_present_or_absent ∅ run_a)).
    reflexivity.
Defined.




End InstanceSpec.

(** ** The default scheduling policy *)

Module ReactiveSchedulingSpec.

Import ReactiveScheduling.

Lemma policy_for_no_policies key :
  policy_for no_policies key = DefaultSchedulingPolicy.
Proof. reflexivity. Qed.

(** A tick in which no asset has a policy of its own launches nothing. *)
Lemma default_tick_requests_nothing context_for graph :
  tick_run_requests no_policies context_for graph = [].
Proof.
  unfold tick_run_requests.
  induction (asset_nodes graph) as [|node nodes IH]; [reflexivity|].
  rewrite fmap_cons. simpl. exact IH.
Qed.

(** C4: the default policy answers every [schedule] call with a result whose
    [launch] is [False] and that carries no cursor and no explicit partition
    keys, and every [react_to_downstream_request] call with a reaction whose
    [include] is [False]. With asset A depending on asset B and no policy
    set, the launch decision is [False] for both and the tick builds no run
    request. *)
Theorem default_policy_never_launches
    (context : SchedulingExecutionContext)
    (asset_partition : AssetKeyPartitionKey)
    (context_for : AssetKey -> SchedulingExecutionContext) :
  schedule DefaultSchedulingPolicy context
  = Some {| launch := false; cursor := None; explicit_partition_keys := None |}
  /\ react_to_downstream_request DefaultSchedulingPolicy context asset_partition
     = Some {| include := false |}
  /\ launch_decisions no_policies context_for scenario_1_graph
     = [Some false; Some false]
  /\ tick_run_requests no_policies context_for scenario_1_graph = [].
Proof.
  split; [reflexivity|].
  split; [reflexivity|].
  split; [reflexivity|].
  apply default_tick_requests_nothing.
Qed.

End ReactiveSchedulingSpec.

(** ** The automation-condition sensor *)

Module AutomationSensorSpec.

Import AutomationSensor.

(** *** The cursor update *)

Section CursorUpdate.

Implicit Types (m : gmap (list string) AutomationConditionCursor).
Implicit Types (cs : list AutomationConditionCursor).

Lemma put_all_untouched cs : forall m (k : list string),
  k ∉ key <$> cs -> put_all m cs !! k = m !! k.
Proof.
  induction cs as [|c cs IH]; intros m k Hk; [reflexivity|].
  rewrite fmap_cons in Hk. apply not_elem_of_cons in Hk as [Hne Hk].
  unfold put_all in *. simpl. rewrite IH by exact Hk.
  apply lookup_insert_ne. congruence.
Qed.







Lemma key_get_new_cursor (results : list AutomationResult) :
  key <$> (get_new_cursor <$> results) = asset_key <$> results.
Proof.
  induction results as [|r rs IH]; [reflexivity|].
  rewrite !fmap_cons, IH. reflexivity.
Qed.

End CursorUpdate.

(** *** The loop over the results *)

Lemma keeps_record_false previous result :
  keeps_record previous result = false <-> record_suppressed previous result.
Proof.
  unfold keeps_record, record_suppressed, is_empty.
  destruct (get_previous_condition_cursor previous (asset_key result)) as [sub|].
  - rewrite orb_false_iff, !negb_false_iff, String.eqb_eq, bool_decide_eq_true.
    split.
    + intros [Hh He]. exists sub. auto.
    + intros (sub' & [= <-] & Hh & He). auto.
  - split; [discriminate|]. intros (sub' & Hs & _). discriminate.
Qed.

Lemma updated_evaluations_from previous results :
  forall acc : list AutomationConditionEvaluation,
  foldl
    (fun (updated : list AutomationConditionEvaluation) result =>
       if keeps_record previous result
       then (updated ++ [serializable_evaluation result])%list
       else updated)
    acc results
  = (acc ++ (serializable_evaluation <$>
             filter (fun r => ~ record_suppressed previous r) results))%list.
Proof.
  induction results as [|r rs IH]; intros acc; simpl.
  - rewrite app_nil_r. reflexivity.
  - rewrite IH. destruct (keeps_record previous r) eqn:Hk.
    + rewrite filter_cons_True.
      * rewrite fmap_cons, <- app_assoc. reflexivity.
      * intros Hs. apply keeps_record_false in Hs. congruence.
    + rewrite filter_cons_False; [reflexivity|].
      intros Hs. apply Hs. apply keeps_record_false. exact Hk.
Qed.

Lemma updated_evaluations_of_filter previous results :
  updated_evaluations_of previous results
  = serializable_evaluation <$>
      filter (fun r => ~ record_suppressed previous r) results.
Proof.
  unfold updated_evaluations_of.
  exact (updated_evaluations_from previous results []).
Qed.

(** *** The tick *)

Section Tick.

Context `{Collaborators}.

(** What a tick that returns has computed. *)
Lemma tick_returns context sensor_def clock locals clock' :
  evaluate_automation_conditions_locals context sensor_def clock
  = (Returns locals, clock') ->
  exists repository,
    repository_def context = Some repository
    /\ clock' = {| readings := readings clock; reads := S (reads clock) |}
    /\ tick_asset_graph locals = asset_graph repository
    /\ evaluation_time (tick_instance_queryer locals) = next_reading clock
    /\ asset_daemon_cursor_from_instigator_serialized_cursor
         (cursor context) (asset_graph repository)
       = Returns (tick_cursor locals)
    /\ tick_newly_observe_requested_asset_keys locals = []
    /\ tick_new_cursor locals
       = with_updates (tick_cursor locals)
           (evaluation_id (tick_cursor locals))
           (timestamp (next_reading clock))
           (tick_newly_observe_requested_asset_keys locals)
           (get_new_cursor <$> tick_results locals)
    /\ tick_updated_evaluations locals
       = updated_evaluations_of (tick_cursor locals) (tick_results locals).
Proof.
  unfold evaluate_automation_conditions_locals, bind, not_none, ret, raise,
    get_current_datetime, of_outcome.
  destruct (repository_def context) as [repository|]; [|discriminate].
  destruct (asset_daemon_cursor_from_instigator_serialized_cursor _ _)
    as [previous|e] eqn:Hload; [|discriminate].
  destruct (evaluate _) as [[results to_request]|e]; [|discriminate].
  intros [= <- <-]. exists repository. simpl.
  repeat split; solve [reflexivity | exact Hload].
Qed.

(** The sensor result is read off the locals. *)
Lemma evaluate_automation_conditions_of_locals context sensor_def clock :
  evaluate_automation_conditions context sensor_def clock
  = match evaluate_automation_conditions_locals context sensor_def clock with
    | (Returns locals, clock') =>
        (Returns
           {| run_requests := tick_run_requests locals;
              result_cursor := serialize_cursor (tick_new_cursor locals);
              automation_condition_evaluations :=
                tick_updated_evaluations locals |},
         clock')
    | (Raises e, clock') => (Raises e, clock')
    end.
Proof.
  unfold evaluate_automation_conditions, bind, ret.
  destruct (evaluate_automation_conditions_locals context sensor_def clock)
    as [[locals|e] clock']; reflexivity.
Qed.


(** C2: in every tick that returns, the evaluation records handed back are,
    in order, the records of exactly those results that are not suppressed;
    a result is suppressed when a previous sub-cursor exists for its asset,
    the hash stored there equals the hash of the result, and the true-set of
    the result is empty. *)
Theorem evaluation_record_omitted_iff_suppressed
    context sensor_def clock locals clock' :
  evaluate_automation_conditions_locals context sensor_def clock
  = (Returns locals, clock') ->
  exists result,
    evaluate_automation_conditions context sensor_def clock
    = (Returns result, clock')
    /\ automation_condition_evaluations result
       = serializable_evaluation <$>
           filter (fun r => ~ record_suppressed (tick_cursor locals) r)
                  (tick_results locals)
    /\ forall r, keeps_record (tick_cursor locals) r = false
                 <-> record_suppressed (tick_cursor locals) r.
Proof.
  intros Htick.
  destruct (tick_returns _ _ _ _ _ Htick)
    as (repository & _ & _ & _ & _ & _ & _ & _ & Hupdated).
  rewrite evaluate_automation_conditions_of_locals, Htick.
  eexists. split; [reflexivity|]. simpl. split.
  - rewrite Hupdated. apply updated_evaluations_of_filter.
  - intros r. apply keeps_record_false.
Qed.



(** C8: in every tick that returns, the list of newly-observe-requested
    asset keys passed to the cursor update is empty, and the new cursor
    records no asset key as newly requested for observation. *)
Theorem no_newly_observe_requested
    context sensor_def clock locals clock' :
  evaluate_automation_conditions_locals context sensor_def clock
  = (Returns locals, clock') ->
  tick_newly_observe_requested_asset_keys locals = []
  /\ newly_observe_requested (tick_new_cursor locals) = [].
Proof.
  intros Htick.
  destruct (tick_returns _ _ _ _ _ Htick)
    as (repository & _ & _ & _ & _ & _ & Hnewly & Hnew & _).
  split; [exact Hnewly|].
  rewrite Hnew. simpl. exact Hnewly.
Qed.

(** C9: a definition that [__init__] builds from arguments whose [user_code]
    keyword is not [True] has [not_supported] as its evaluation function:
    calling it raises [NotImplementedError] in every context and leaves no
    sensor result. *)
Theorem non_user_code_sensor_not_supported
    {S} (args : InitArgs) (s s' : S) self :
  init args s = (Returns self, s') ->
  kwargs args !! "user_code" <> Some (PyBool true) ->
  evaluation_fn self = not_supported_fn
  /\ forall context clock,
       call_evaluation_fn self context clock
       = (Raises NotImplementedError, clock).
Proof.
  intros Hinit Hkw.
  assert (Hfn : evaluation_fn self = not_supported_fn).
  { revert Hinit. unfold init, bind, ret, raise, of_outcome,
      opt_bool_param, opt_inst_param, param_invariant.
    destruct (kwargs args !! "user_code") as [[|[|]| | |]|];
      try discriminate; try congruence;
      destruct (kwargs args !! "default_automation_condition") as [[| | | |]|];
      try discriminate;
      destruct (normalize_tags (arg_run_tags args)); try discriminate;
      destruct (check_valid_name (arg_name args)); try discriminate;
      intros [= <- _]; reflexivity. }
  split; [exact Hfn|].
  intros context clock. unfold call_evaluation_fn. rewrite Hfn. reflexivity.
Qed.

End Tick.

(** *** The theorems at the sample deployment *)

Import Sample.

(** Two ticks in a row: the second starts from the cursor the first wrote,
    and the evaluation id stays where it was. *)
Example second_tick_evaluation_id :
  (let first := @evaluate_automation_conditions sample_collaborators
                  (sample_context (Some "v1:|||")) sample_sensor
                  (sample_clock 5) in
   match fst first with
   | Returns r1 =>
       match fst (sample_tick (Some (result_cursor r1)) 5) with
       | Returns locals =>
           Some (result_cursor r1,
                 evaluation_id (tick_cursor locals),
                 evaluation_id (tick_new_cursor locals))
       | Raises _ => None
       end
   | Raises _ => None
   end) = Some ("v1:|||", 3, 3)%Z.
Proof. vm_compute. reflexivity. Qed.

(** Without a repository the tick raises before it reads the clock. *)
Example detached_tick_raises :
  @evaluate_automation_conditions sample_collaborators
    detached_context sample_sensor (sample_clock 5)
  = (Raises CheckError, sample_clock 5).
Proof. reflexivity. Qed.

(** An asset whose true-set was and is empty gets no record; a non-empty
    true-set is recorded even when its hash did not change. *)
Example suppression_is_asymmetric :
  updated_evaluations_of
    {| evaluation_id := 1;
       condition_cursors :=
         {[ ["A"] := {| key := ["A"]; result_value_hash := "0"; node_state := EmptyString |};
            ["B"] := {| key := ["B"]; result_value_hash := "1"; node_state := EmptyString |} ]};
       newly_observe_requested := [] |}
    [ {| asset_key := ["A"]; value_hash := "0"; true_slice := ∅;
         new_node_state := EmptyString;
         serializable_evaluation :=
           {| evaluated_key := ["A"]; num_requested := 0; summary := EmptyString |} |};
      {| asset_key := ["B"]; value_hash := "1";
         true_slice := {[ (["B"], None) ]};
         new_node_state := EmptyString;
         serializable_evaluation :=
           {| evaluated_key := ["B"]; num_requested := 1; summary := "missing" |} |} ]
  = [ {| evaluated_key := ["B"]; num_requested := 1; summary := "missing" |} ].
Proof. vm_compute. reflexivity. Qed.

(** Running the sample tick to its locals. *)
Ltac run_sample_tick Htick locals clock' :=
  match goal with
  | |- context [sample_tick ?serialized ?step] =>
      assert (Htick : { p : TickLocals * Clock |
                        sample_tick serialized step = (Returns (fst p), snd p) })
        by (eexists (_, _); vm_compute; reflexivity);
      destruct Htick as [[locals clock'] Htick];
      unfold sample_tick, fst, snd in Htick
  end.

(** What was computed about the outcome of a sample tick, said of its
    locals. *)
Ltac of_sample_tick Htick Hfacts :=
  unfold sample_tick in Hfacts; rewrite Htick in Hfacts;
  cbv beta iota delta [fst] in Hfacts.



Lemma evaluation_record_omitted_iff_suppressed_witness :
  exists locals clock' result,
    sample_tick (Some "v1:stored") 5 = (Returns locals, clock')
    /\ @evaluate_automation_conditions sample_collaborators
         (sample_context (Some "v1:stored")) sample_sensor (sample_clock 5)
       = (Returns result, clock')
    /\ (fun r =>
          (asset_key r,
           result_value_hash <$>
             get_previous_condition_cursor (tick_cursor locals) (asset_key r),
           value_hash r,
           is_empty (true_slice r))) <$> tick_results locals
       = [ (["B"], Some "0", "0", true); (["A"], Some "1", "1", false) ]
    /\ asset_key <$>
         filter (fun r => record_suppressed (tick_cursor locals) r)
                (tick_results locals)
       = [["B"]]
    /\ automation_condition_evaluations result
       = serializable_evaluation <$>
           filter (fun r => ~ record_suppressed (tick_cursor locals) r)
                  (tick_results locals)
    /\ automation_condition_evaluations result
       = [ {| evaluated_key := ["A"]; num_requested := 1;
              summary := "missing" |} ].
Proof.
  assert (Hfacts :
    match fst (sample_tick (Some "v1:stored") 5) with
    | Returns locals =>
        (fun r =>
           (asset_key r,
            result_value_hash <$>
              get_previous_condition_cursor (tick_cursor locals) (asset_key r),
            value_hash r,
            is_empty (true_slice r))) <$> tick_results locals
        = [ (["B"], Some "0", "0", true); (["A"], Some "1", "1", false) ]
        /\ asset_key <$>
             filter (fun r => record_suppressed (tick_cursor locals) r)
                    (tick_results locals)
           = [["B"]]
        /\ serializable_evaluation <$>
             filter (fun r => ~ record_suppressed (tick_cursor locals) r)
                    (tick_results locals)
           = [ {| evaluated_key := ["A"]; num_requested := 1;
                  summary := "missing" |} ]
    | Raises _ => False
    end) by (vm_compute; repeat split; reflexivity).
  run_sample_tick Htick locals clock'.
  of_sample_tick Htick Hfacts.
  destruct Hfacts as (Hresults & Homitted & Hkept).
  destruct (evaluation_record_omitted_iff_suppressed _ _ _ _ _ Htick)
    as (result & Hresult & Hrecords & _).
  exists locals, clock', result.
  split; [exact Htick|]. split; [exact Hresult|]. split; [exact Hresults|].
  split; [exact Homitted|]. split; [exact Hrecords|].
  rewrite Hrecords. exact Hkept.
Defined.

(** The sample sensor ticking at a given time, from the cursor in store. *)
Local Abbreviation tick_at now :=
  (@evaluate_automation_conditions_locals sample_collaborators
     (sample_context (Some "v1:stored")) sample_sensor (clock_at now)).





Lemma no_newly_observe_requested_witness :
  exists locals clock',
    sample_tick (Some "v1:|") 5 = (Returns locals, clock')
    /\ newly_observe_requested (tick_new_cursor locals) = [].
Proof.
  run_sample_tick Htick locals clock'.
  exists locals, clock'. split; [exact Htick|].
  apply (no_newly_observe_requested _ _ _ _ _ Htick).
Defined.

Lemma non_user_code_sensor_not_supported_witness :
  exists self,
    @init sample_collaborators unit
      (sample_args {[ "user_code" := PyBool false ]}) tt
    = (Returns self, tt)
    /\ kwargs (sample_args {[ "user_code" := PyBool false ]}) !! "user_code"
       <> Some (PyBool true)
    /\ forall context clock,
         @call_evaluation_fn sample_collaborators self context clock
         = (Raises NotImplementedError, clock).
Proof.
  assert (Hinit : { self |
            @init sample_collaborators unit
              (sample_args {[ "user_code" := PyBool false ]}) tt
            = (Returns self, tt) })
    by (eexists; vm_compute; reflexivity).
  destruct Hinit as [self Hinit].
  assert (Hkw : kwargs (sample_args {[ "user_code" := PyBool false ]})
                  !! "user_code" <> Some (PyBool true)).
  { vm_compute. discriminate. }
  exists self. split; [exact Hinit|]. split; [exact Hkw|].
  apply (non_user_code_sensor_not_supported _ _ _ _ Hinit Hkw).
Defined.

End AutomationSensorSpec.

(** ** Run creation under interference *)

Module InstanceInterference.

Import Instance.

(** The storage once the other writers have had their next turn. *)
Local Abbreviation turn st := (snd (interleave st)).

Lemma interleave_turn st : interleave st = (Returns tt, turn st).
Proof. unfold interleave. destruct (others st); reflexivity. Qed.

Lemma turn_cons rs a rest :
  turn {| runs := rs; others := a :: rest |} = {| runs := a rs; others := rest |}.
Proof. reflexivity. Qed.

Lemma has_run_turn rid st :
  has_run rid st
  = (Returns (match runs (turn st) !! rid with Some _ => true | None => false end),
     turn st).
Proof.
  unfold has_run, storage_has_run, bind. rewrite interleave_turn.
  rewrite InstanceSpec.bool_decide_is_Some_lookup. reflexivity.
Qed.

Lemma get_run_by_id_turn rid st :
  get_run_by_id rid st = (Returns (runs (turn st) !! rid), turn st).
Proof.
  unfold get_run_by_id, storage_get_run_by_id, bind. rewrite interleave_turn.
  reflexivity.
Qed.

Lemma storage_add_run_turn pipeline_run st :
  storage_add_run pipeline_run st
  = match runs (turn st) !! run_id pipeline_run with
    | Some _ => (Raises DagsterRunAlreadyExists, turn st)
    | None =>
        (Returns pipeline_run,
         {| runs := <[run_id pipeline_run := pipeline_run]> (runs (turn st));
            others := others (turn st) |})
    end.
Proof.
  unfold storage_add_run, bind. rewrite interleave_turn. reflexivity.
Qed.

Lemma create_run_turn pipeline_run st :
  create_run pipeline_run st
  = match runs (turn st) !! run_id pipeline_run with
    | Some _ => (Raises DagsterRunAlreadyExists, turn st)
    | None =>
        match runs (turn (turn st)) !! run_id pipeline_run with
        | Some _ => (Raises DagsterRunAlreadyExists, turn (turn st))
        | None =>
            (Returns pipeline_run,
             {| runs := <[run_id pipeline_run := pipeline_run]>
                          (runs (turn (turn st)));
                others := others (turn (turn st)) |})
        end
    end.
Proof.
  unfold create_run, bind. rewrite has_run_turn.
  destruct (runs (turn st) !! run_id pipeline_run); [reflexivity|].
  rewrite storage_add_run_turn.
  destruct (runs (turn (turn st)) !! run_id pipeline_run); reflexivity.
Qed.

(** Whatever the other writers do, when [get_or_create_run] returns, it
    returns what the storage holds under the run id at that moment; the only
    exceptions it lets out are [DagsterRunConflict] and [CheckError], never
    [DagsterRunAlreadyExists]. *)
Theorem get_or_create_run_outcome pipeline_run st :
  match get_or_create_run pipeline_run st with
  | (Returns found, st') => found = runs st' !! run_id pipeline_run
  | (Raises e, st') => e = DagsterRunConflict \/ e = CheckError
  end.
Proof.
  unfold get_or_create_run, bind. rewrite has_run_turn.
  destruct (runs (turn st) !! run_id pipeline_run) as [r1|] eqn:E1.
  - rewrite get_run_by_id_turn.
    destruct (bool_decide (runs (turn (turn st)) !! run_id pipeline_run
                           = Some pipeline_run)); simpl; auto.
  - unfold try_except, bind. rewrite create_run_turn.
    assert (Hcaught : forall st1,
      match (if decide (DagsterRunAlreadyExists = DagsterRunAlreadyExists)
             then (fun s =>
                     let (o, s') := has_run (run_id pipeline_run) s in
                     match o with
                     | Returns a =>
                         (if negb a then raise CheckError
                          else get_run_by_id (run_id pipeline_run)) s'
                     | Raises e => (Raises e, s')
                     end) st1
             else (Raises DagsterRunAlreadyExists, st1)) with
      | (Returns found, st') => found = runs st' !! run_id pipeline_run
      | (Raises e, st') => e = DagsterRunConflict \/ e = CheckError
      end).
    { intros st1. rewrite decide_True by reflexivity. rewrite has_run_turn.
      destruct (runs (turn st1) !! run_id pipeline_run) as [r2|] eqn:E2; simpl.
      - rewrite get_run_by_id_turn. reflexivity.
      - auto. }
    destruct (runs (turn (turn st)) !! run_id pipeline_run) as [r1|] eqn:E1'.
    + apply Hcaught.
    + destruct (runs (turn (turn (turn st))) !! run_id pipeline_run)
        as [r2|] eqn:E2.
      * apply Hcaught.
      * simpl. symmetry. apply lookup_insert_eq.
Qed.

(** On a storage nobody else is writing, [get_or_create_run] changes nothing
    but the entry of the requested id, and that one only when it was absent:
    an existing run is never overwritten. *)
Theorem get_or_create_run_frame (rs : gmap string PipelineRun) pipeline_run :
  exists rs',
    snd (get_or_create_run pipeline_run (quiescent rs)) = quiescent rs'
    /\ (forall rid, rid <> run_id pipeline_run -> rs' !! rid = rs !! rid)
    /\ (forall stored, rs !! run_id pipeline_run = Some stored ->
          rs' !! run_id pipeline_run = Some stored)
    /\ (rs !! run_id pipeline_run = None ->
          rs' !! run_id pipeline_run = Some pipeline_run).
Proof.
  unfold get_or_create_run, bind, try_except. rewrite has_run_turn.
  change (turn (quiescent rs)) with (quiescent rs).
  change (runs (quiescent rs)) with rs.
  destruct (rs !! run_id pipeline_run) as [stored|] eqn:E.
  - exists rs. rewrite get_run_by_id_turn.
    change (turn (quiescent rs)) with (quiescent rs).
    split.
    + destruct (negb _); reflexivity.
    + split; [reflexivity|]. split; intros; congruence.
  - exists (<[run_id pipeline_run := pipeline_run]> rs). split.
    + unfold create_run, bind. rewrite has_run_turn.
      change (turn (quiescent rs)) with (quiescent rs).
      change (runs (quiescent rs)) with rs. rewrite E.
      rewrite storage_add_run_turn.
      change (turn (quiescent rs)) with (quiescent rs).
      change (runs (quiescent rs)) with rs. rewrite E. reflexivity.
    + split; [|split].
      * intros rid Hne. apply lookup_insert_ne. congruence.
      * intros; congruence.
      * intros _. apply lookup_insert_eq.
Qed.

(** On a storage nobody else is writing, [get_or_create_run] is idempotent:
    unless the first call raises [DagsterRunConflict], it returns the
    requested run, and a second call returns the same run and leaves the
    storage as the first call left it. *)
Theorem get_or_create_run_idempotent (rs : gmap string PipelineRun) pipeline_run :
  (fst (get_or_create_run pipeline_run (quiescent rs)) = Raises DagsterRunConflict
   /\ (exists stored, rs !! run_id pipeline_run = Some stored
                      /\ stored <> pipeline_run))
  \/ (fst (get_or_create_run pipeline_run (quiescent rs))
      = Returns (Some pipeline_run)
      /\ get_or_create_run pipeline_run
           (snd (get_or_create_run pipeline_run (quiescent rs)))
         = (Returns (Some pipeline_run),
            snd (get_or_create_run pipeline_run (quiescent rs)))).
Proof.
  assert (Hpresent : forall rs0 : gmap string PipelineRun,
    rs0 !! run_id pipeline_run = Some pipeline_run ->
    get_or_create_run pipeline_run (quiescent rs0)
    = (Returns (Some pipeline_run), quiescent rs0)).
  { intros rs0 E0. unfold get_or_create_run, bind. rewrite has_run_turn.
    change (turn (quiescent rs0)) with (quiescent rs0).
    change (runs (quiescent rs0)) with rs0. rewrite E0.
    rewrite get_run_by_id_turn.
    change (turn (quiescent rs0)) with (quiescent rs0).
    change (runs (quiescent rs0)) with rs0. rewrite E0.
    rewrite bool_decide_eq_true_2 by reflexivity. reflexivity. }
  cbv zeta.
  destruct (rs !! run_id pipeline_run) as [stored|] eqn:E.
  - destruct (decide (stored = pipeline_run)) as [->|Hne].
    + right. rewrite (Hpresent rs E). simpl. split; [reflexivity|].
      apply Hpresent. exact E.
    + left. split; [|eauto].
      unfold get_or_create_run, bind. rewrite has_run_turn.
      change (turn (quiescent rs)) with (quiescent rs).
      change (runs (quiescent rs)) with rs. rewrite E.
      rewrite get_run_by_id_turn.
      change (turn (quiescent rs)) with (quiescent rs).
      change (runs (quiescent rs)) with rs. rewrite E.
      rewrite bool_decide_eq_false_2 by congruence. reflexivity.
  - right.
    assert (Hfirst : get_or_create_run pipeline_run (quiescent rs)
      = (Returns (Some pipeline_run),
         quiescent (<[run_id pipeline_run := pipeline_run]> rs))).
    { unfold get_or_create_run, bind, try_except. rewrite has_run_turn.
      change (turn (quiescent rs)) with (quiescent rs).
      change (runs (quiescent rs)) with rs. rewrite E.
      unfold create_run, bind. rewrite has_run_turn.
      change (turn (quiescent rs)) with (quiescent rs).
      change (runs (quiescent rs)) with rs. rewrite E.
      rewrite storage_add_run_turn.
      change (turn (quiescent rs)) with (quiescent rs).
      change (runs (quiescent rs)) with rs. rewrite E. reflexivity. }
    rewrite Hfirst. simpl. split; [reflexivity|].
    apply Hpresent. apply lookup_insert_eq.
Qed.

(** On a storage nobody else is writing, a run created under a fresh id can
    be looked up afterwards, and its id is used up: [has_run] answers true,
    [get_run_by_id] gives the run back, and creating it again raises
    [DagsterRunAlreadyExists] without touching the storage. *)
Theorem create_run_then_lookup (rs : gmap string PipelineRun) pipeline_run :
  rs !! run_id pipeline_run = None ->
  exists st,
    create_run pipeline_run (quiescent rs) = (Returns pipeline_run, st)
    /\ has_run (run_id pipeline_run) st = (Returns true, st)
    /\ get_run_by_id (run_id pipeline_run) st = (Returns (Some pipeline_run), st)
    /\ create_run pipeline_run st = (Raises DagsterRunAlreadyExists, st)
    /\ forall rid, rid <> run_id pipeline_run -> runs st !! rid = rs !! rid.
Proof.
  intros Habsent.
  exists (quiescent (<[run_id pipeline_run := pipeline_run]> rs)).
  split.
  { rewrite create_run_turn.
    repeat change (turn (quiescent rs)) with (quiescent rs).
    change (runs (quiescent rs)) with rs. rewrite Habsent. reflexivity. }
  set (rs' := <[run_id pipeline_run := pipeline_run]> rs).
  assert (Hstored : rs' !! run_id pipeline_run = Some pipeline_run)
    by apply lookup_insert_eq.
  split.
  { rewrite has_run_turn.
    change (turn (quiescent rs')) with (quiescent rs').
    change (runs (quiescent rs')) with rs'. rewrite Hstored. reflexivity. }
  split.
  { rewrite get_run_by_id_turn.
    change (turn (quiescent rs')) with (quiescent rs').
    change (runs (quiescent rs')) with rs'. rewrite Hstored. reflexivity. }
  split.
  { rewrite create_run_turn.
    change (turn (quiescent rs')) with (quiescent rs').
    change (runs (quiescent rs')) with rs'. rewrite Hstored. reflexivity. }
  intros rid Hne. apply lookup_insert_ne. congruence.
Qed.

Lemma create_run_then_lookup_witness :
  exists st,
    create_run run_a (quiescent ∅) = (Returns run_a, st)
    /\ create_run run_a st = (Raises DagsterRunAlreadyExists, st).
Proof.
  destruct (create_run_then_lookup ∅ run_a (lookup_empty _))
    as (st & Hcreate & _ & _ & Hagain & _).
  exists st. split; [exact Hcreate|exact Hagain].
Defined.

(** The race the code calls an inconsistent run storage: the id is absent at
    the first check, a run is stored under it before the create (which
    therefore raises), and the run is gone again at the second check; then
    [get_or_create_run] raises [CheckError]. *)
Theorem get_or_create_run_inconsistent_storage
    (rs : gmap string PipelineRun) pipeline_run a0 a1 a2 rest :
  a0 rs !! run_id pipeline_run = None ->
  is_Some (a1 (a0 rs) !! run_id pipeline_run) ->
  a2 (a1 (a0 rs)) !! run_id pipeline_run = None ->
  get_or_create_run pipeline_run {| runs := rs; others := a0 :: a1 :: a2 :: rest |}
  = (Raises CheckError, {| runs := a2 (a1 (a0 rs)); others := rest |}).
Proof.
  intros H0 [stored H1] H2.
  unfold get_or_create_run, bind, try_except.
  rewrite has_run_turn, turn_cons. cbn [runs]. rewrite H0.
  unfold create_run, bind.
  rewrite has_run_turn, turn_cons. cbn [runs]. rewrite H1.
  unfold raise. cbv beta iota. rewrite decide_True by reflexivity.
  rewrite has_run_turn, turn_cons. cbn [runs]. rewrite H2. reflexivity.
Qed.

Lemma get_or_create_run_inconsistent_storage_witness :
  get_or_create_run run_a
    {| runs := ∅; others := [other_idle; other_adds_b; delete "r"] |}
  = (Raises CheckError, {| runs := delete "r" (other_adds_b (other_idle ∅));
                           others := [] |}).
Proof.
  apply (get_or_create_run_inconsistent_storage ∅ run_a
           other_idle other_adds_b (delete "r") []).
  - reflexivity.
  - exists run_b. reflexivity.
  - reflexivity.
Defined.

(** The id is there at the first check and gone when the run is fetched:
    the missing run compares unequal to the requested one and
    [get_or_create_run] raises [DagsterRunConflict]. *)
Theorem get_or_create_run_vanished_run
    (rs : gmap string PipelineRun) pipeline_run a0 a1 rest :
  is_Some (a0 rs !! run_id pipeline_run) ->
  a1 (a0 rs) !! run_id pipeline_run = None ->
  get_or_create_run pipeline_run {| runs := rs; others := a0 :: a1 :: rest |}
  = (Raises DagsterRunConflict, {| runs := a1 (a0 rs); others := rest |}).
Proof.
  intros [stored H0] H1.
  unfold get_or_create_run, bind.
  rewrite has_run_turn, turn_cons. cbn [runs]. rewrite H0.
  rewrite get_run_by_id_turn, turn_cons. cbn [runs]. rewrite H1.
  rewrite bool_decide_eq_false_2 by discriminate. reflexivity.
Qed.

Lemma get_or_create_run_vanished_run_witness :
  get_or_create_run run_b
    {| runs := ∅; others := [other_adds_b; delete "r"] |}
  = (Raises DagsterRunConflict,
     {| runs := delete "r" (other_adds_b ∅); others := [] |}).
Proof.
  apply (get_or_create_run_vanished_run ∅ run_b other_adds_b (delete "r") []).
  - exists run_b. reflexivity.
  - reflexivity.
Defined.

End InstanceInterference.

(** ** More on the automation-condition sensor *)

Module AutomationSensorMore.

Import AutomationSensor AutomationSensorParts.

Section Tick.

Context `{Collaborators}.

(** The tick, as a function of the outcomes of its decoder and evaluator. *)
Lemma tick_by_cases context sensor_def clock :
  evaluate_automation_conditions context sensor_def clock
  = match repository_def context with
    | None => (Raises CheckError, clock)
    | Some repository =>
        let graph := asset_graph repository in
        let now := next_reading clock in
        match asset_daemon_cursor_from_instigator_serialized_cursor
                (cursor context) graph with
        | Raises e => (Raises e, read_once clock)
        | Returns previous =>
            match evaluate (evaluator_of context sensor_def graph now previous) with
            | Raises e => (Raises e, read_once clock)
            | Returns (results, to_request) =>
                (Returns
                   {| run_requests :=
                        build_run_requests to_request graph
                          (auto_materialize_run_tags (instance context));
                      result_cursor :=
                        serialize_cursor
                          (with_updates previous (evaluation_id previous)
                             (timestamp now) []
                             (get_new_cursor <$> results));
                      automation_condition_evaluations :=
                        updated_evaluations_of previous results |},
                 read_once clock)
            end
        end
    end.
Proof.
  unfold evaluate_automation_conditions, evaluate_automation_conditions_locals,
    bind, not_none, ret, raise, get_current_datetime, of_outcome.
  destruct (repository_def context) as [repository|]; [|reflexivity].
  cbv beta iota zeta.
  destruct (asset_daemon_cursor_from_instigator_serialized_cursor _ _)
    as [previous|e]; [|reflexivity].
  change (evaluate _) with
    (evaluate (evaluator_of context sensor_def (asset_graph repository)
                 (next_reading clock) previous)).
  destruct (evaluate _) as [[results to_request]|e]; reflexivity.
Qed.

(** Without a repository the tick raises [CheckError] and has not read the
    clock; with one, it reads the clock exactly once, whether it returns or
    raises. *)
Theorem tick_reads_clock_once context sensor_def clock :
  match repository_def context with
  | None =>
      evaluate_automation_conditions context sensor_def clock
      = (Raises CheckError, clock)
  | Some _ =>
      snd (evaluate_automation_conditions context sensor_def clock)
      = read_once clock
  end.
Proof.
  rewrite tick_by_cases.
  destruct (repository_def context) as [repository|]; [|reflexivity].
  cbv zeta.
  destruct (asset_daemon_cursor_from_instigator_serialized_cursor _ _)
    as [previous|e]; [|reflexivity].
  destruct (evaluate _) as [[results to_request]|e]; reflexivity.
Qed.

(** The tick has no handler of its own. An exception of the cursor decoder
    ends the tick with that exception, and so does an exception of the
    evaluator run on the cursor that was read; in both cases the clock has
    been read once and no run request, cursor or evaluation record is handed
    back. *)
Theorem tick_passes_on_exceptions context sensor_def clock repository e :
  repository_def context = Some repository ->
  asset_daemon_cursor_from_instigator_serialized_cursor
    (cursor context) (asset_graph repository) = Raises e
  \/ (exists previous,
        asset_daemon_cursor_from_instigator_serialized_cursor
          (cursor context) (asset_graph repository) = Returns previous
        /\ evaluate (evaluator_of context sensor_def (asset_graph repository)
                       (next_reading clock) previous) = Raises e) ->
  evaluate_automation_conditions context sensor_def clock
  = (Raises e, read_once clock).
Proof.
  intros Hrepo Hraised. rewrite tick_by_cases, Hrepo. cbv zeta.
  destruct Hraised as [Hload|(previous & Hload & Hev)]; rewrite Hload.
  - reflexivity.
  - rewrite Hev. reflexivity.
Qed.

(** Of the sensor definition, the tick looks at the asset selection and the
    default automation condition only: name, run tags, status, interval and
    the rest have no influence on its outcome. *)
Theorem tick_ignores_other_fields context d1 d2 clock :
  asset_selection d1 = asset_selection d2 ->
  default_automation_condition d1 = default_automation_condition d2 ->
  evaluate_automation_conditions context d1 clock
  = evaluate_automation_conditions context d2 clock.
Proof.
  intros Hsel Hcond. rewrite !tick_by_cases.
  destruct (repository_def context) as [repository|]; [|reflexivity].
  cbv zeta.
  destruct (asset_daemon_cursor_from_instigator_serialized_cursor _ _)
    as [previous|e]; [|reflexivity].
  unfold evaluator_of. rewrite Hsel, Hcond. reflexivity.
Qed.

(** In the first tick of an asset selection (no asset has a previous
    sub-cursor) every evaluation record is handed back. *)
Theorem first_tick_records_everything previous results :
  (forall r, r ∈ results ->
     get_previous_condition_cursor previous (asset_key r) = None) ->
  updated_evaluations_of previous results = serializable_evaluation <$> results.
Proof.
  intros Hnone.
  rewrite AutomationSensorSpec.updated_evaluations_of_filter.
  f_equal. induction results as [|r rs IH]; [reflexivity|].
  rewrite filter_cons_True.
  - f_equal. apply IH. intros r' Hr'. apply Hnone. right. exact Hr'.
  - intros (sub & Hsub & _). rewrite Hnone in Hsub by left. discriminate.
Qed.

(** The records handed back are a sublist of the records of all results, in
    their order, and the record of every result with a non-empty true-set is
    among them. *)
Theorem recorded_evaluations_bounds previous results :
  sublist (updated_evaluations_of previous results)
          (serializable_evaluation <$> results)
  /\ forall r, r ∈ results -> true_slice r <> ∅ ->
       serializable_evaluation r ∈ updated_evaluations_of previous results.
Proof.
  rewrite AutomationSensorSpec.updated_evaluations_of_filter. split.
  - apply fmap_sublist, sublist_filter.
  - intros r Hr Hne. apply list_elem_of_fmap. exists r. split; [reflexivity|].
    apply list_elem_of_filter. split; [|exact Hr].
    intros (sub & _ & _ & Hempty). contradiction.
Qed.

(** Construction with a default automation condition is refused unless
    [user_code] is [True]: [__init__] raises a parameter check error. *)
Theorem init_default_condition_needs_user_code {S} (args : InitArgs) (s : S) c :
  kwargs args !! "default_automation_condition" = Some (PyCondition c) ->
  kwargs args !! "user_code" <> Some (PyBool true) ->
  init args s = (Raises ParameterCheckError, s).
Proof.
  intros Hcond Hkw.
  unfold init, bind, ret, raise, opt_bool_param, opt_inst_param, param_invariant.
  rewrite Hcond.
  destruct (kwargs args !! "user_code") as [[|[|]| | |]|];
    try reflexivity; congruence.
Qed.

(** Every definition [__init__] builds is consistent: it is of sensor type
    [AUTOMATION] exactly when [user_code] was [True], exactly then its
    evaluation function runs [evaluate_automation_conditions] on the
    definition itself, and a default automation condition is only ever
    stored on such a definition. Construction leaves the state alone. *)
Theorem init_builds_consistent_definition {S} (args : InitArgs) (s s' : S) self :
  init args s = (Returns self, s') ->
  s' = s
  /\ (sensor_type self = AUTOMATION
      <-> kwargs args !! "user_code" = Some (PyBool true))
  /\ (sensor_type self = AUTOMATION
      <-> evaluation_fn self = partial_evaluate_automation_conditions)
  /\ (is_Some (default_automation_condition self) ->
      sensor_type self = AUTOMATION)
  /\ (sensor_type self = AUTOMATION ->
      forall context clock,
        call_evaluation_fn self context clock
        = evaluate_automation_conditions context self clock).
Proof.
  unfold init, bind, ret, raise, of_outcome, opt_bool_param, opt_inst_param,
    param_invariant.
  destruct (kwargs args !! "user_code") as [[|[|]| | |]|];
    try discriminate;
    destruct (kwargs args !! "default_automation_condition") as [[| | | |]|];
    try discriminate;
    destruct (normalize_tags (arg_run_tags args)); try discriminate;
    destruct (check_valid_name (arg_name args)); try discriminate;
    intros [= <- <-];
    unfold sensor_type, call_evaluation_fn, default_automation_condition; simpl;
    (split; [reflexivity|]);
    (split; [split; congruence|]);
    (split; [split; congruence|]);
    (split; [intros [? ?]; congruence|]);
    intros; congruence.
Qed.

End Tick.

Import Sample.

Lemma tick_passes_on_exceptions_witness :
  repository_def (sample_context (Some "v1:|x|"))
  = Some {| asset_graph := sample_graph |}
  /\ sample_deserialize "v1:|x|" sample_graph = Raises ValueError
  /\ @evaluate_automation_conditions sample_collaborators
       (sample_context (Some "v1:|x|")) sample_sensor (sample_clock 5)
     = (Raises ValueError, read_once (sample_clock 5)).
Proof.
  assert (Hload : @asset_daemon_cursor_from_instigator_serialized_cursor
                    sample_collaborators
                    (cursor (sample_context (Some "v1:|x|")))
                    (asset_graph {| asset_graph := sample_graph |})
                  = Raises ValueError)
    by (vm_compute; reflexivity).
  split; [reflexivity|]. split; [vm_compute; reflexivity|].
  exact (@tick_passes_on_exceptions sample_collaborators
           (sample_context (Some "v1:|x|")) sample_sensor (sample_clock 5)
           {| asset_graph := sample_graph |} ValueError eq_refl
           (or_introl Hload)).
Defined.

Lemma tick_ignores_other_fields_witness :
  @evaluate_automation_conditions sample_collaborators (sample_context None)
    sample_sensor (sample_clock 5)
  = @evaluate_automation_conditions sample_collaborators (sample_context None)
      {| name := "renamed";
         _user_code := true;
         _default_automation_condition := None;
         _run_tags := [("team", "data")];
         job_name := None;
         evaluation_fn := partial_evaluate_automation_conditions;
         minimum_interval_seconds := Some 30%Z;
         description := Some "another description";
         default_status := RUNNING;
         asset_selection := AllSelection |}
      (sample_clock 5).
Proof.
  apply (@tick_ignores_other_fields sample_collaborators); reflexivity.
Defined.

Lemma first_tick_records_everything_witness :
  updated_evaluations_of empty_cursor
    [sample_result
       (@evaluator_of sample_collaborators (sample_context None) sample_sensor
          sample_graph noon empty_cursor)
       {| node_key := ["A"]; parent_keys := []; partition_keys := None;
          automation_condition := None |}]
  = [ {| evaluated_key := ["A"]; num_requested := 0; summary := EmptyString |} ].
Proof.
  apply (first_tick_records_everything empty_cursor).
  intros r _. apply lookup_empty.
Defined.

Lemma init_default_condition_needs_user_code_witness :
  @init sample_collaborators unit
    (sample_args {[ "default_automation_condition"
                    := PyCondition (LeafCondition "missing") ]}) tt
  = (Raises ParameterCheckError, tt).
Proof.
  apply (@init_default_condition_needs_user_code sample_collaborators unit
           (sample_args {[ "default_automation_condition"
                           := PyCondition (LeafCondition "missing") ]})
           tt (LeafCondition "missing")).
  - vm_compute. reflexivity.
  - vm_compute. discriminate.
Defined.

Lemma init_builds_consistent_definition_witness :
  exists self,
    @init sample_collaborators unit
      (sample_args {[ "user_code" := PyBool true ]}) tt = (Returns self, tt)
    /\ sensor_type self = AUTOMATION
    /\ forall context clock,
         @call_evaluation_fn sample_collaborators self context clock
         = @evaluate_automation_conditions sample_collaborators context self clock.
Proof.
  assert (Hinit : { self |
            @init sample_collaborators unit
              (sample_args {[ "user_code" := PyBool true ]}) tt
            = (Returns self, tt) })
    by (eexists; vm_compute; reflexivity).
  destruct Hinit as [self Hinit].
  destruct (@init_builds_consistent_definition sample_collaborators unit
              _ _ _ _ Hinit) as (_ & Htype & _ & _ & Hcall).
  assert (Hauto : sensor_type self = AUTOMATION).
  { apply Htype. vm_compute. reflexivity. }
  exists self. split; [exact Hinit|]. split; [exact Hauto|].
  exact (Hcall Hauto).
Defined.

End AutomationSensorMore.

(** ** Tags *)

Module TagsSpec.

Import Tags.

Lemma prefix_app (p s : string) : String.prefix p (p ++ s) = true.
Proof.
  induction p as [|c p IH]; simpl.
  - destruct s; reflexivity.
  - destruct (Ascii.ascii_dec c c) as [_|Hne]; [exact IH|congruence].
Qed.

Lemma is_user_tag_spec kv : is_user_tag kv = true <-> user_tag kv.
Proof.
  unfold is_user_tag, user_tag. split.
  - destruct kv as [[| | |k|] v]; try discriminate.
    destruct v as [| | |v|]; try discriminate.
    intros Hk. apply negb_true_iff in Hk. eauto.
  - intros (k & v & -> & Hk). rewrite Hk. reflexivity.
Qed.

Lemma check_each_tag_ok (items : list (PyObj * PyObj)) :
  forallb (fun kv => is_str kv.1 && is_str kv.2) items = true ->
  check_each_tag (items.*1)
  = if forallb is_user_tag items then inr tt else inl (Check CheckError).
Proof.
  induction items as [|[k v] items IH]; intros Hstr; [reflexivity|].
  simpl in Hstr. apply andb_true_iff in Hstr as [Hkv Hrest].
  apply andb_true_iff in Hkv as [Hk Hv].
  destruct k as [| | |ks|]; try discriminate.
  destruct v as [| | |vs|]; try discriminate.
  rewrite fmap_cons.
  cbn [check_each_tag fst startswith try_bind forallb is_user_tag].
  destruct (String.prefix SYSTEM_TAG_PREFIX ks); simpl; [reflexivity|].
  apply IH. exact Hrest.
Qed.

Lemma not_all_str (items : list (PyObj * PyObj)) :
  forallb (fun kv => is_str kv.1 && is_str kv.2) items = false ->
  forallb is_user_tag items = false.
Proof.
  induction items as [|[k v] items IH]; [discriminate|].
  simpl. intros Hstr. apply andb_false_iff in Hstr as [Hkv|Hrest].
  - destruct k as [| | |ks|]; try reflexivity.
    destruct v as [| | |vs|]; try reflexivity. discriminate.
  - rewrite (IH Hrest). apply andb_false_r.
Qed.

Lemma check_tags_on_dict items name :
  check_tags (ODict items) name
  = if forallb is_user_tag items then inr tt else inl (Check CheckError).
Proof.
  unfold check_tags, opt_dict_param.
  destruct (forallb _ items) eqn:Hstr.
  - cbn [try_bind keys]. apply check_each_tag_ok. exact Hstr.
  - rewrite (not_all_str _ Hstr). reflexivity.
Qed.

(** On a dict, [check_tags] returns exactly when every key and value is a
    string and no key starts with the system prefix; otherwise it raises the
    check error. *)
Theorem check_tags_dict items name :
  check_tags (ODict items) name
  = (if forallb is_user_tag items then inr tt else inl (Check CheckError))
  /\ (check_tags (ODict items) name = inr tt <-> Forall user_tag items).
Proof.
  pose proof (check_tags_on_dict items name) as Heq.
  split; [exact Heq|]. rewrite Heq.
  rewrite Forall_forall.
  destruct (forallb is_user_tag items) eqn:Hall.
  - split; [|reflexivity]. intros _ kv Hin. apply is_user_tag_spec.
    rewrite forallb_forall in Hall. apply Hall, list_elem_of_In, Hin.
  - split; [discriminate|]. intros Hu. exfalso.
    apply not_true_iff_false in Hall. apply Hall. apply forallb_forall.
    intros kv Hin. apply is_user_tag_spec, Hu, list_elem_of_In, Hin.
Qed.

(** A tag under the system prefix is never accepted, whatever else the dict
    holds; the four system tags are such tags. *)
Theorem check_tags_rejects_system_tags items name suffix value :
  (OStr (SYSTEM_TAG_PREFIX ++ suffix), value) ∈ items ->
  check_tags (ODict items) name = inl (Check CheckError)
  /\ Forall (fun tag => exists rest, tag = SYSTEM_TAG_PREFIX ++ rest)
       [SCHEDULE_NAME_TAG; BACKFILL_ID_TAG; PARTITION_NAME_TAG; PARTITION_SET_TAG].
Proof.
  intros Hin. split.
  - rewrite check_tags_on_dict.
    destruct (forallb is_user_tag items) eqn:Hall; [|reflexivity].
    rewrite forallb_forall in Hall.
    apply list_elem_of_In, Hall in Hin. simpl in Hin.
    destruct value; try discriminate.
    change (String "d" _) with (SYSTEM_TAG_PREFIX ++ suffix) in Hin.
    rewrite prefix_app in Hin. discriminate.
  - repeat constructor; eexists; reflexivity.
Qed.

Lemma check_tags_rejects_system_tags_witness :
  check_tags (ODict [(OStr "team", OStr "data");
                     (OStr PARTITION_NAME_TAG, OStr "2020-01-01")])
             "tags"
  = inl (Check CheckError).
Proof.
  apply (check_tags_rejects_system_tags _ "tags" "partition" (OStr "2020-01-01")).
  right. left.
Defined.

(** What is not a dict is never accepted either: [None] passes the
    parameter check, whose result is dropped, and fails at [obj.keys()];
    every other value fails the parameter check. *)
Theorem check_tags_not_a_dict obj name :
  (forall items, obj <> ODict items) ->
  check_tags obj name
  = match obj with
    | ONone => inl AttributeError
    | _ => inl (Check ParameterCheckError)
    end.
Proof.
  intros Hnot. destruct obj; try reflexivity.
  exfalso. eapply Hnot. reflexivity.
Qed.

Lemma check_tags_not_a_dict_witness :
  check_tags ONone "tags" = inl AttributeError.
Proof.
  apply (check_tags_not_a_dict ONone "tags"). intros items. discriminate.
Defined.

End TagsSpec.

(** ** The definitions class *)

Module DefinitionsSpec.

Import DefinitionsClass.

#[local] Open Scope list_scope.

Section MergeFacts.

Context {objects : Objects} {machinery : Machinery}.

Lemma merge_items_spec {V} both_have i (items : list (string * V)) :
  forall merged idx,
  (forall k, k ∈ merged.*1 -> is_Some (idx !! k)) ->
  match merge_items both_have i items merged idx with
  | inr (merged', idx') =>
      merged' = (merged ++ items)%list
      /\ NoDup (items.*1)
      /\ (forall k, k ∈ items.*1 -> k ∉ merged.*1)
      /\ (forall k, k ∈ merged'.*1 -> is_Some (idx' !! k))
      /\ (forall k j, idx' !! k = Some j ->
            (k ∈ items.*1 /\ j = i) \/ idx !! k = Some j)
  | inl err =>
      exists j k,
        err = DagsterInvariantViolationError (both_have j i k)
        /\ k ∈ items.*1
        /\ ((k ∈ merged.*1 /\ idx !! k = Some j)
            \/ (j = i /\ ~ NoDup (items.*1)))
  end.
Proof.
  induction items as [|[key value] rest IH]; intros merged idx Hdom.
  - simpl. rewrite app_nil_r. repeat split; auto.
    + constructor.
    + intros k Hk. inversion Hk.
  - cbn [merge_items]. case_bool_decide as Hin.
    + destruct (Hdom key Hin) as [j Hj]. unfold index_of. rewrite Hj. simpl.
      exists j, key. split; [reflexivity|]. split; [left|]. left. auto.
    + assert (Hdom' : forall k, k ∈ (merged ++ [(key, value)]).*1 ->
                        is_Some (<[key := i]> idx !! k)).
      { intros k Hk. rewrite fmap_app in Hk. apply elem_of_app in Hk as [Hk|Hk].
        - destruct (decide (key = k)) as [->|Hne].
          + rewrite lookup_insert_eq. eauto.
          + rewrite lookup_insert_ne by exact Hne. auto.
        - apply list_elem_of_singleton in Hk. simpl in Hk. subst k.
          rewrite lookup_insert_eq. eauto. }
      specialize (IH (merged ++ [(key, value)]) (<[key := i]> idx) Hdom').
      destruct (merge_items both_have i rest _ _) as [err|[merged' idx']].
      * destruct IH as (j & k & -> & Hk & Hcase).
        exists j, k. split; [reflexivity|]. split; [right; exact Hk|].
        destruct Hcase as [[Hkm Hidx]|[-> Hdup]].
        -- rewrite fmap_app in Hkm. apply elem_of_app in Hkm as [Hkm|Hkm].
           ++ left. split; [exact Hkm|].
              destruct (decide (key = k)) as [->|Hne]; [contradiction|].
              rewrite lookup_insert_ne in Hidx by exact Hne. exact Hidx.
           ++ apply list_elem_of_singleton in Hkm. simpl in Hkm. subst k.
              rewrite lookup_insert_eq in Hidx. injection Hidx as <-.
              right. split; [reflexivity|].
              rewrite fmap_cons. simpl. intros Hnd.
              apply NoDup_cons in Hnd as [Hnot _]. contradiction.
        -- right. split; [reflexivity|]. rewrite fmap_cons. intros Hnd.
           apply NoDup_cons in Hnd as [_ Hnd]. contradiction.
      * destruct IH as (-> & Hnd & Hdisj & Hdom'' & Hidx).
        split; [rewrite <- app_assoc; reflexivity|].
        split.
        { rewrite fmap_cons. apply NoDup_cons. split; [|exact Hnd].
          simpl. intros Hk. apply (Hdisj key Hk).
          rewrite fmap_app. apply elem_of_app. right. left. }
        split.
        { intros k Hk Hkm. rewrite fmap_cons in Hk.
          apply elem_of_cons in Hk as [->|Hk]; [contradiction|].
          apply (Hdisj k Hk). rewrite fmap_app. apply elem_of_app. left. exact Hkm. }
        split; [exact Hdom''|].
        intros k j Hj. destruct (Hidx k j Hj) as [[Hk ->]|Hold].
        -- left. split; [|reflexivity]. rewrite fmap_cons. right. exact Hk.
        -- destruct (decide (key = k)) as [->|Hne].
           ++ rewrite lookup_insert_eq in Hold. injection Hold as <-.
              left. split; [|reflexivity]. rewrite fmap_cons. left.
           ++ rewrite lookup_insert_ne in Hold by exact Hne. right. exact Hold.
Qed.


Lemma all_of_app {A} (field : DefinitionsArgs -> option (list A)) l1 l2 :
  all_of field (l1 ++ l2) = all_of field l1 ++ all_of field l2.
Proof. unfold all_of. rewrite fmap_app. apply join_app. Qed.

Lemma all_of_snoc {A} (field : DefinitionsArgs -> option (list A)) l d :
  all_of field (l ++ [d])
  = all_of field l ++ default [] (field (original_args d)).
Proof.
  rewrite all_of_app. unfold all_of at 2. simpl. rewrite app_nil_r. reflexivity.
Qed.

Lemma keys_all_of_middle {V}
    (field : DefinitionsArgs -> option (list (string * V))) done d rest :
  (all_of field (done ++ d :: rest)).*1
  = (all_of field done).*1 ++ keys_in field d ++ (all_of field rest).*1.
Proof.
  rewrite all_of_app, fmap_app. f_equal.
  change (d :: rest) with ([d] ++ rest). rewrite all_of_app, fmap_app. f_equal.
  unfold all_of, keys_in. simpl. rewrite app_nil_r. reflexivity.
Qed.

Lemma executors_of_app l1 l2 :
  executors_of (l1 ++ l2) = executors_of l1 ++ executors_of l2.
Proof. apply omap_app. Qed.

Lemma executors_of_one d :
  executors_of [d] = match executor (original_args d) with
                     | Some e => [e]
                     | None => []
                     end.
Proof. unfold executors_of. simpl. destruct (executor _); reflexivity. Qed.

Lemma merge_start_invariant : merge_invariant [] merge_start.
Proof.
  constructor; simpl; try reflexivity; try constructor.
  - intros k Hk. inversion Hk.
  - intros k j Hk. rewrite lookup_empty in Hk. discriminate.
  - intros k Hk. inversion Hk.
  - intros k j Hk. rewrite lookup_empty in Hk. discriminate.
  - intros e He. inversion He.
  - intros e He. discriminate.
Qed.

Lemma invariant_compatible done m :
  merge_invariant done m -> compatible done.
Proof.
  intros Hinv. split; [|split].
  - rewrite <- (inv_resources _ _ Hinv). apply (inv_resources_nodup _ _ Hinv).
  - rewrite <- (inv_loggers _ _ Hinv). apply (inv_loggers_nodup _ _ Hinv).
  - intros e1 e2 H1 H2.
    pose proof (inv_executors_same _ _ Hinv e1 H1) as E1.
    pose proof (inv_executors_same _ _ Hinv e2 H2) as E2.
    congruence.
Qed.

Lemma invariant_args done m :
  merge_invariant done m -> merged_args m = union_args done.
Proof.
  intros Hinv. unfold merged_args, union_args.
  rewrite (inv_assets _ _ Hinv), (inv_schedules _ _ Hinv),
    (inv_sensors _ _ Hinv), (inv_jobs _ _ Hinv),
    (inv_asset_checks _ _ Hinv), (inv_resources _ _ Hinv),
    (inv_loggers _ _ Hinv), (inv_executor _ _ Hinv).
  reflexivity.
Qed.


Lemma dict_step {V} (field : DefinitionsArgs -> option (list (string * V)))
    both_have done d rest merged idx :
  merged = all_of field done ->
  NoDup (merged.*1) ->
  (forall k, k ∈ merged.*1 -> is_Some (idx !! k)) ->
  (forall k j, idx !! k = Some j ->
     exists dj, done !! j = Some dj /\ k ∈ keys_in field dj) ->
  match merge_items both_have (length done)
          (default [] (field (original_args d))) merged idx with
  | inr (merged', idx') =>
      merged' = all_of field (done ++ [d])
      /\ NoDup (merged'.*1)
      /\ (forall k, k ∈ merged'.*1 -> is_Some (idx' !! k))
      /\ (forall k j, idx' !! k = Some j ->
            exists dj, (done ++ [d]) !! j = Some dj /\ k ∈ keys_in field dj)
  | inl err =>
      exists j k dj,
        err = DagsterInvariantViolationError (both_have j (length done) k)
        /\ (done ++ d :: rest) !! j = Some dj
        /\ j <= length done
        /\ k ∈ keys_in field dj /\ k ∈ keys_in field d
        /\ (j = length done -> ~ NoDup (keys_in field d))
        /\ ~ NoDup ((all_of field (done ++ d :: rest)).*1)
  end.
Proof.
  intros Hmerged Hnd Hdom Hidx.
  pose proof (merge_items_spec both_have (length done)
                (default [] (field (original_args d))) merged idx Hdom) as Hspec.
  destruct (merge_items _ _ _ _ _) as [err|[merged' idx']].
  - destruct Hspec as (j & k & -> & Hk & Hcase).
    destruct Hcase as [[Hkm Hj]|[-> Hdup]].
    + destruct (Hidx k j Hj) as (dj & Hdj & Hkdj).
      exists j, k, dj. split; [reflexivity|].
      pose proof (lookup_lt_Some _ _ _ Hdj) as Hlt.
      split; [apply lookup_app_l_Some; exact Hdj|].
      split; [lia|]. split; [exact Hkdj|]. split; [exact Hk|].
      split; [lia|].
      rewrite keys_all_of_middle, <- Hmerged. intros Hall.
      apply NoDup_app in Hall as (_ & Hdisj & _).
      apply (Hdisj k Hkm). apply elem_of_app. left. exact Hk.
    + exists (length done), k, d. split; [reflexivity|].
      split; [apply list_lookup_middle; reflexivity|].
      split; [lia|]. split; [exact Hk|]. split; [exact Hk|].
      split; [intros _; exact Hdup|].
      rewrite keys_all_of_middle. intros Hall.
      apply NoDup_app in Hall as (_ & _ & Hall).
      apply NoDup_app in Hall as (Hall & _). contradiction.
  - destruct Hspec as (-> & Hnd' & Hdisj & Hdom' & Hidx').
    split; [rewrite all_of_snoc, Hmerged; reflexivity|].
    split.
    { rewrite fmap_app. apply NoDup_app. split; [exact Hnd|].
      split; [|exact Hnd']. intros k Hkm Hk. exact (Hdisj k Hk Hkm). }
    split; [exact Hdom'|].
    intros k j Hj. destruct (Hidx' k j Hj) as [[Hk ->]|Hold].
    + exists d. split; [apply list_lookup_middle; reflexivity|exact Hk].
    + destruct (Hidx k j Hold) as (dj & Hdj & Hkdj).
      exists dj. split; [apply lookup_app_l_Some; exact Hdj|exact Hkdj].
Qed.

Lemma merge_one_spec done d rest m :
  merge_invariant done m ->
  match merge_one (length done) d m with
  | inr m' => merge_invariant (done ++ [d]) m'
  | inl err =>
      exists v, err = DagsterInvariantViolationError v
                /\ accurate (done ++ d :: rest) v
                /\ ~ compatible (done ++ d :: rest)
  end.
Proof.
  intros Hinv. unfold merge_one.
  pose proof (dict_step resources BothHaveResource done d rest
                (merging_resources m) (resource_key_indexes m)
                (inv_resources _ _ Hinv) (inv_resources_nodup _ _ Hinv)
                (inv_resources_dom _ _ Hinv) (inv_resources_index _ _ Hinv))
    as Hres.
  destruct (merge_items BothHaveResource _ _ _ _) as [err|[r ridx]].
  { destruct Hres as (j & k & dj & -> & Hdj & Hle & Hkj & Hki & Hsame & Hdup).
    simpl. eexists. split; [reflexivity|]. split.
    - exists dj, d. split; [exact Hdj|].
      split; [apply list_lookup_middle; reflexivity|]. auto.
    - intros (Hc & _). contradiction. }
  destruct Hres as (Hr & Hrnd & Hrdom & Hridx).
  pose proof (dict_step loggers BothHaveLogger done d rest
                (merging_loggers m) (logger_key_indexes m)
                (inv_loggers _ _ Hinv) (inv_loggers_nodup _ _ Hinv)
                (inv_loggers_dom _ _ Hinv) (inv_loggers_index _ _ Hinv))
    as Hlog.
  cbn [try_bind].
  destruct (merge_items BothHaveLogger _ _ _ _) as [err|[l lidx]].
  { destruct Hlog as (j & k & dj & -> & Hdj & Hle & Hkj & Hki & Hsame & Hdup).
    simpl. eexists. split; [reflexivity|]. split.
    - exists dj, d. split; [exact Hdj|].
      split; [apply list_lookup_middle; reflexivity|]. auto.
    - intros (_ & Hc & _). contradiction. }
  destruct Hlog as (Hl & Hlnd & Hldom & Hlidx).
  cbn [try_bind].
  destruct (executor (original_args d)) as [theirs|] eqn:Htheirs.
  - destruct (merging_executor m) as [ours|] eqn:Hours.
    + destruct (decide (ours = theirs)) as [->|Hne].
      * rewrite bool_decide_eq_true_2 by discriminate.
        rewrite bool_decide_eq_false_2 by (intros Hc; apply Hc; reflexivity).
        cbn [andb try_bind fst snd].
        constructor; cbn [merging_assets merging_schedules merging_sensors
          merging_jobs merging_asset_checks merging_resources
          resource_key_indexes merging_loggers logger_key_indexes
          merging_executor executor_index];
          rewrite ?all_of_snoc;
          rewrite <- ?(inv_assets _ _ Hinv), <- ?(inv_schedules _ _ Hinv),
            <- ?(inv_sensors _ _ Hinv), <- ?(inv_jobs _ _ Hinv),
            <- ?(inv_asset_checks _ _ Hinv); auto.
        -- rewrite Hr, all_of_snoc. reflexivity.
        -- rewrite Hl, all_of_snoc. reflexivity.
        -- rewrite executors_of_app, executors_of_one, Htheirs.
           rewrite last_snoc. reflexivity.
        -- intros e He. rewrite executors_of_app, executors_of_one, Htheirs in He.
           apply elem_of_app in He as [He|He].
           ++ pose proof (inv_executors_same _ _ Hinv e He). congruence.
           ++ apply list_elem_of_singleton in He. congruence.
        -- intros e [= <-]. exists (length done), d.
           split; [reflexivity|].
           split; [apply list_lookup_middle; reflexivity|exact Htheirs].
      * rewrite bool_decide_eq_true_2 by discriminate.
        rewrite bool_decide_eq_true_2 by congruence.
        cbn [andb try_bind].
        destruct (inv_executor_index _ _ Hinv ours Hours)
          as (j & dj & Hj & Hdj & Hej).
        eexists. split; [reflexivity|]. split.
        -- exists j, dj, d, ours, theirs. split; [exact Hj|].
           pose proof (lookup_lt_Some _ _ _ Hdj) as Hlt.
           split; [exact Hlt|].
           split; [apply lookup_app_l_Some; exact Hdj|].
           split; [apply list_lookup_middle; reflexivity|]. auto.
        -- intros (_ & _ & Hsame). apply Hne. apply Hsame.
           ++ rewrite executors_of_app. apply elem_of_app. left.
              unfold executors_of. apply list_elem_of_omap.
              exists dj. split; [|exact Hej].
              apply list_elem_of_lookup. eauto.
           ++ rewrite executors_of_app. apply elem_of_app. right.
              change (d :: rest) with ([d] ++ rest).
              rewrite executors_of_app, executors_of_one, Htheirs.
              left.
    + rewrite bool_decide_eq_false_2 by (intros Hc; apply Hc; reflexivity).
      cbn [andb try_bind fst snd].
      constructor; cbn [merging_assets merging_schedules merging_sensors
          merging_jobs merging_asset_checks merging_resources
          resource_key_indexes merging_loggers logger_key_indexes
          merging_executor executor_index];
          rewrite ?all_of_snoc;
          rewrite <- ?(inv_assets _ _ Hinv), <- ?(inv_schedules _ _ Hinv),
            <- ?(inv_sensors _ _ Hinv), <- ?(inv_jobs _ _ Hinv),
            <- ?(inv_asset_checks _ _ Hinv); auto.
      * rewrite Hr, all_of_snoc. reflexivity.
      * rewrite Hl, all_of_snoc. reflexivity.
      * rewrite executors_of_app, executors_of_one, Htheirs.
        rewrite last_snoc. reflexivity.
      * intros e He. rewrite executors_of_app, executors_of_one, Htheirs in He.
        apply elem_of_app in He as [He|He].
        -- pose proof (inv_executors_same _ _ Hinv e He). congruence.
        -- apply list_elem_of_singleton in He. congruence.
      * intros e [= <-]. exists (length done), d.
        split; [reflexivity|].
        split; [apply list_lookup_middle; reflexivity|exact Htheirs].
  - cbn [try_bind fst snd].
    constructor; cbn [merging_assets merging_schedules merging_sensors
          merging_jobs merging_asset_checks merging_resources
          resource_key_indexes merging_loggers logger_key_indexes
          merging_executor executor_index];
          rewrite ?all_of_snoc;
          rewrite <- ?(inv_assets _ _ Hinv), <- ?(inv_schedules _ _ Hinv),
            <- ?(inv_sensors _ _ Hinv), <- ?(inv_jobs _ _ Hinv),
            <- ?(inv_asset_checks _ _ Hinv); auto.
    + rewrite Hr, all_of_snoc. reflexivity.
    + rewrite Hl, all_of_snoc. reflexivity.
    + rewrite executors_of_app, executors_of_one, Htheirs, app_nil_r.
      apply (inv_executor _ _ Hinv).
    + intros e He. rewrite executors_of_app, executors_of_one, Htheirs, app_nil_r in He.
      apply (inv_executors_same _ _ Hinv e He).
    + intros e He. destruct (inv_executor_index _ _ Hinv e He)
        as (j & dj & Hj & Hdj & Hej).
      exists j, dj. split; [exact Hj|].
      split; [apply lookup_app_l_Some; exact Hdj|exact Hej].
Qed.


Lemma merge_loop_spec rest : forall done m,
  merge_invariant done m ->
  match merge_loop (length done) rest m with
  | inr m' => merge_invariant (done ++ rest) m'
  | inl err =>
      exists v, err = DagsterInvariantViolationError v
                /\ accurate (done ++ rest) v
                /\ ~ compatible (done ++ rest)
  end.
Proof.
  induction rest as [|d rest IH]; intros done m Hinv.
  - simpl. rewrite app_nil_r. exact Hinv.
  - cbn [merge_loop].
    pose proof (merge_one_spec done d rest m Hinv) as Hone.
    destruct (merge_one (length done) d m) as [err|m'].
    + exact Hone.
    + cbn [try_bind]. specialize (IH (done ++ [d]) m' Hone).
      rewrite length_app in IH. simpl in IH.
      replace (length done + 1) with (S (length done)) in IH by lia.
      rewrite <- app_assoc in IH. exact IH.
Qed.

Lemma merge_cases def_sets :
  (compatible def_sets /\ merge def_sets = init (union_args def_sets))
  \/ (~ compatible def_sets
      /\ exists v, merge def_sets = inl (DagsterInvariantViolationError v)
                   /\ accurate def_sets v).
Proof.
  unfold merge.
  pose proof (merge_loop_spec def_sets [] merge_start merge_start_invariant)
    as Hloop.
  simpl in Hloop.
  destruct (merge_loop 0 def_sets merge_start) as [err|m].
  - right. destruct Hloop as (v & -> & Hacc & Hnot).
    split; [exact Hnot|]. exists v. split; [reflexivity|exact Hacc].
  - left. split; [exact (invariant_compatible _ _ Hloop)|].
    cbn [try_bind]. rewrite (invariant_args _ _ Hloop). reflexivity.
Qed.

(** [merge] returns exactly when the definitions objects are compatible and
    the constructor accepts their union; the object it returns holds the
    union as its original arguments. *)
Theorem merge_returns_union def_sets :
  (compatible def_sets -> merge def_sets = init (union_args def_sets))
  /\ (forall merged, merge def_sets = inr merged ->
        compatible def_sets /\ original_args merged = union_args def_sets).
Proof.
  destruct (merge_cases def_sets) as [[Hc Heq]|[Hnot (v & Heq & _)]].
  - split; [intros _; exact Heq|].
    intros merged Hm. split; [exact Hc|].
    rewrite Heq in Hm. unfold init in Hm.
    destruct (_create_repository_using_definitions_args _ _); [discriminate|].
    simpl in Hm. injection Hm as <-. reflexivity.
  - split; [intros Hc; contradiction|].
    intros merged Hm. rewrite Heq in Hm. discriminate.
Qed.

(** When the definitions objects are not compatible, [merge] raises a
    [DagsterInvariantViolationError] before it builds anything, and the
    message is accurate: it names two objects of the list that give the same
    resource key or logger key, or two different executors. In particular
    the lookups of the index tables never raise [KeyError] and the executor
    index in the message is never [None]. *)
Theorem merge_reports_conflict def_sets :
  ~ compatible def_sets ->
  exists v, merge def_sets = inl (DagsterInvariantViolationError v)
            /\ accurate def_sets v.
Proof.
  intros Hnot.
  destruct (merge_cases def_sets) as [[Hc _]|[_ Hv]]; [contradiction|exact Hv].
Qed.


Lemma merge_inr def_sets merged :
  merge def_sets = inr merged ->
  compatible def_sets /\ original_args merged = union_args def_sets.
Proof.
  intros Hm.
  destruct (merge_cases def_sets) as [[Hc Heq]|[Hnot (v & Heq & _)]].
  - split; [exact Hc|]. rewrite Heq in Hm. unfold init in Hm.
    destruct (_create_repository_using_definitions_args _ _); [discriminate|].
    simpl in Hm. injection Hm as <-. reflexivity.
  - rewrite Heq in Hm. discriminate.
Qed.

Lemma all_of_two {A} (field : DefinitionsArgs -> option (list A)) d1 d2 l1 l2 :
  field (original_args d1) = Some (all_of field l1) ->
  field (original_args d2) = Some (all_of field l2) ->
  all_of field [d1; d2] = all_of field (l1 ++ l2).
Proof.
  intros H1 H2. rewrite all_of_app. unfold all_of at 1. simpl.
  rewrite H1, H2. simpl. rewrite app_nil_r. reflexivity.
Qed.

Lemma executors_of_two d1 d2 l1 l2 :
  executor (original_args d1) = last (executors_of l1) ->
  executor (original_args d2) = last (executors_of l2) ->
  executors_of [d1; d2]
  = option_list (last (executors_of l1)) ++ option_list (last (executors_of l2)).
Proof.
  intros H1 H2. unfold executors_of at 1. simpl. rewrite H1, H2.
  destruct (last (executors_of l1)), (last (executors_of l2)); reflexivity.
Qed.

Lemma last_two {A} (E1 E2 : list A) :
  last (option_list (last E1) ++ option_list (last E2)) = last (E1 ++ E2).
Proof.
  rewrite (last_app E1 E2).
  destruct (last E2) as [e2|]; simpl.
  - destruct (last E1); reflexivity.
  - rewrite app_nil_r. destruct (last E1); reflexivity.
Qed.

Lemma same_two {A} (E1 E2 : list A) :
  (forall a b, a ∈ E1 -> b ∈ E1 -> a = b) ->
  (forall a b, a ∈ E2 -> b ∈ E2 -> a = b) ->
  (forall a b, a ∈ E1 ++ E2 -> b ∈ E1 ++ E2 -> a = b)
  <-> (forall a b,
         a ∈ option_list (last E1) ++ option_list (last E2) ->
         b ∈ option_list (last E1) ++ option_list (last E2) -> a = b).
Proof.
  intros H1 H2.
  assert (Hsub : forall a,
            a ∈ option_list (last E1) ++ option_list (last E2) -> a ∈ E1 ++ E2).
  { intros a Ha. apply elem_of_app in Ha as [Ha|Ha]; apply elem_of_app.
    - left. destruct (last E1) as [x|] eqn:E; [|inversion Ha].
      apply list_elem_of_singleton in Ha as ->.
      apply last_Some_elem_of. exact E.
    - right. destruct (last E2) as [x|] eqn:E; [|inversion Ha].
      apply list_elem_of_singleton in Ha as ->.
      apply last_Some_elem_of. exact E. }
  assert (Hrep : forall a, a ∈ E1 ++ E2 ->
            exists x, x ∈ option_list (last E1) ++ option_list (last E2)
                      /\ a = x).
  { intros a Ha. apply elem_of_app in Ha as [Ha|Ha].
    - destruct (last E1) as [x|] eqn:E.
      + exists x. split; [apply elem_of_app; left; left|].
        apply H1; [exact Ha|]. apply last_Some_elem_of. exact E.
      + apply last_None in E. subst E1. inversion Ha.
    - destruct (last E2) as [x|] eqn:E.
      + exists x. split; [apply elem_of_app; right; left|].
        apply H2; [exact Ha|]. apply last_Some_elem_of. exact E.
      + apply last_None in E. subst E2. inversion Ha. }
  split.
  - intros Hall a b Ha Hb. apply Hall; apply Hsub; assumption.
  - intros Hall a b Ha Hb.
    destruct (Hrep a Ha) as (x & Hx & ->).
    destruct (Hrep b Hb) as (y & Hy & ->).
    apply Hall; assumption.
Qed.

(** Merging in two stages gives what merging at once gives: when two lists
    of definitions objects each merge, the two results are compatible
    exactly when the concatenated list is, they have the same union, and
    then [merge] builds the same object from either. *)
Theorem merge_in_stages l1 l2 d1 d2 :
  merge l1 = inr d1 ->
  merge l2 = inr d2 ->
  (compatible (l1 ++ l2) <-> compatible [d1; d2])
  /\ union_args (l1 ++ l2) = union_args [d1; d2]
  /\ (compatible (l1 ++ l2) -> merge (l1 ++ l2) = merge [d1; d2]).
Proof.
  intros Hm1 Hm2.
  destruct (merge_inr _ _ Hm1) as [Hc1 Ha1].
  destruct (merge_inr _ _ Hm2) as [Hc2 Ha2].
  assert (Hfield : forall A (field : DefinitionsArgs -> option (list A)),
            (forall l, field (union_args l) = Some (all_of field l)) ->
            all_of field [d1; d2] = all_of field (l1 ++ l2)).
  { intros A field Hf. apply all_of_two.
    - rewrite Ha1. apply Hf.
    - rewrite Ha2. apply Hf. }
  assert (Hexec : executors_of [d1; d2]
            = option_list (last (executors_of l1))
              ++ option_list (last (executors_of l2))).
  { apply executors_of_two; [rewrite Ha1|rewrite Ha2]; reflexivity. }
  assert (Hunion : union_args (l1 ++ l2) = union_args [d1; d2]).
  { unfold union_args.
    rewrite (Hfield _ assets), (Hfield _ schedules), (Hfield _ sensors),
      (Hfield _ jobs), (Hfield _ resources), (Hfield _ loggers),
      (Hfield _ asset_checks) by reflexivity.
    rewrite Hexec, last_two, executors_of_app. reflexivity. }
  assert (Hiff : compatible (l1 ++ l2) <-> compatible [d1; d2]).
  { unfold compatible.
    rewrite (Hfield _ resources), (Hfield _ loggers) by reflexivity.
    rewrite Hexec, executors_of_app.
    destruct Hc1 as (_ & _ & Hs1). destruct Hc2 as (_ & _ & Hs2).
    pose proof (same_two _ _ Hs1 Hs2) as Hsame.
    tauto. }
  split; [exact Hiff|]. split; [exact Hunion|].
  intros Hc.
  destruct (merge_cases (l1 ++ l2)) as [[_ Heq]|[Hnot _]]; [|contradiction].
  destruct (merge_cases [d1; d2]) as [[_ Heq']|[Hnot _]];
    [|apply Hiff in Hc; contradiction].
  rewrite Heq, Heq', Hunion. reflexivity.
Qed.

Lemma first_assets_def_with_spec asset_key defs :
  match first_assets_def_with asset_key defs with
  | inr found =>
      exists before after,
        defs = before ++ found :: after
        /\ asset_key ∈ keys_of found
        /\ forall d, d ∈ before -> asset_key ∉ keys_of d
  | inl err =>
      err = DagsterInvariantViolationError (CouldNotFindAsset asset_key)
      /\ forall d, d ∈ defs -> asset_key ∉ keys_of d
  end.
Proof.
  induction defs as [|d defs IH]; simpl.
  - split; [reflexivity|]. intros d Hd. inversion Hd.
  - case_bool_decide as Hin.
    + exists [], defs. split; [reflexivity|]. split; [exact Hin|].
      intros d' Hd'. inversion Hd'.
    + destruct (first_assets_def_with asset_key defs) as [err|found].
      * destruct IH as [-> Hnone]. split; [reflexivity|].
        intros d' Hd'. apply elem_of_cons in Hd' as [->|Hd']; auto.
      * destruct IH as (before & after & -> & Hfound & Hbefore).
        exists (d :: before), after. split; [reflexivity|].
        split; [exact Hfound|].
        intros d' Hd'. apply elem_of_cons in Hd' as [->|Hd']; auto.
Qed.

(** [get_assets_def] answers with the first assets definition of the asset
    graph, in its order, that holds the key, and raises
    [DagsterInvariantViolationError] exactly when none does; a string stands
    for the key of that one segment. *)
Theorem get_assets_def_first_match self key repo :
  get_repository_def self = inr repo ->
  match get_assets_def self key with
  | inr found =>
      exists before after,
        assets_defs repo = before ++ found :: after
        /\ from_coercible key ∈ keys_of found
        /\ forall d, d ∈ before -> from_coercible key ∉ keys_of d
  | inl err =>
      err = DagsterInvariantViolationError
              (CouldNotFindAsset (from_coercible key))
      /\ forall d, d ∈ assets_defs repo -> from_coercible key ∉ keys_of d
  end.
Proof.
  intros Hrepo. unfold get_assets_def. rewrite Hrepo. cbn [try_bind].
  apply first_assets_def_with_spec.
Qed.

End MergeFacts.

Import DefinitionsSample.

Lemma merge_reports_conflict_witness :
  exists v,
    @merge sample_objects sample_machinery [defs_raw; defs_marts]
    = inl (DagsterInvariantViolationError v)
    /\ @accurate sample_objects [defs_raw; defs_marts] v.
Proof.
  apply (@merge_reports_conflict sample_objects sample_machinery).
  intros (Hnd & _).
  apply NoDup_cons in Hnd as [Hnot _]. apply Hnot. left.
Defined.

Lemma merge_returns_union_witness :
  @compatible sample_objects [defs_raw; defs_reports]
  /\ @merge sample_objects sample_machinery [defs_raw; defs_reports]
     = @init sample_objects sample_machinery
         (@union_args sample_objects [defs_raw; defs_reports]).
Proof.
  assert (Hc : @compatible sample_objects [defs_raw; defs_reports]).
  { split; [|split].
    - apply (bool_decide_unpack _). vm_compute. exact I.
    - apply (bool_decide_unpack _). vm_compute. exact I.
    - intros e1 e2 H1 H2.
      apply list_elem_of_singleton in H1. apply list_elem_of_singleton in H2.
      congruence. }
  split; [exact Hc|].
  exact (proj1 (@merge_returns_union sample_objects sample_machinery
                  [defs_raw; defs_reports]) Hc).
Defined.

Lemma merge_in_stages_witness :
  exists d1 d2,
    @merge sample_objects sample_machinery [defs_raw] = inr d1
    /\ @merge sample_objects sample_machinery [defs_reports] = inr d2
    /\ @union_args sample_objects [defs_raw; defs_reports]
       = @union_args sample_objects [d1; d2].
Proof.
  assert (H1 : { d1 | @merge sample_objects sample_machinery [defs_raw]
                      = inr d1 })
    by (eexists; vm_compute; reflexivity).
  assert (H2 : { d2 | @merge sample_objects sample_machinery [defs_reports]
                      = inr d2 })
    by (eexists; vm_compute; reflexivity).
  destruct H1 as [d1 H1]. destruct H2 as [d2 H2].
  exists d1, d2. split; [exact H1|]. split; [exact H2|].
  exact (proj1 (proj2 (@merge_in_stages sample_objects sample_machinery
                         [defs_raw] [defs_reports] d1 d2 H1 H2))).
Defined.

Lemma get_assets_def_first_match_witness :
  @get_repository_def sample_objects sample_machinery defs_marts
  = inr [("marts", [["orders"]; ["customers"]])]
  /\ @get_assets_def sample_objects sample_machinery defs_marts
       (OfStr "customers")
     = inr ("marts", [["orders"]; ["customers"]]).
Proof.
  split; [reflexivity|].
  pose proof (@get_assets_def_first_match sample_objects sample_machinery
                defs_marts (OfStr "customers")
                [("marts", [["orders"]; ["customers"]])] eq_refl) as Hfirst.
  destruct (@get_assets_def sample_objects sample_machinery defs_marts
              (OfStr "customers")) as [err|found].
  - exfalso. destruct Hfirst as [_ Hnone].
    apply (Hnone ("marts", [["orders"]; ["customers"]])); [left|].
    vm_compute. apply (bool_decide_unpack _). vm_compute. exact I.
  - destruct Hfirst as (before & after & Hsplit & _ & _).
    destruct before as [|d before].
    + injection Hsplit as <- _. reflexivity.
    + injection Hsplit as _ Hrest. destruct before; discriminate.
Defined.

End DefinitionsSpec.

(** ** Where an instance comes from *)

Module InstanceHomeSpec.

Import InstanceHome.

Section WithParts.

Context {parts : Parts}.

Lemma home_set_cases p :
  (exists path, DAGSTER_HOME p = Some path /\ path <> EmptyString
                /\ _is_dagster_home_set p = (inr true, p)
                /\ _dagster_home p = (inr (expanduser path), p))
  \/ ((DAGSTER_HOME p = None \/ DAGSTER_HOME p = Some EmptyString)
      /\ _is_dagster_home_set p = (inr false, p)
      /\ _dagster_home p
         = (inl (DagsterInvariantViolationError DagsterHomeNotSet), p)).
Proof.
  unfold _is_dagster_home_set, _dagster_home.
  destruct (DAGSTER_HOME p) as [[|c path]|].
  - right. auto.
  - left. exists (String c path). repeat split. discriminate.
  - right. auto.
Qed.

Lemma from_ref_inr instance_ref inst :
  from_ref instance_ref = inr inst ->
  _instance_type inst = PERSISTENT /\ _ref inst = Some instance_ref.
Proof.
  unfold from_ref, try_bind.
  destruct (ref_local_artifact_storage instance_ref); [discriminate|].
  destruct (ref_run_storage instance_ref); [discriminate|].
  destruct (ref_event_storage instance_ref); [discriminate|].
  destruct (ref_compute_log_manager instance_ref); [discriminate|].
  destruct (ref_run_launcher instance_ref); [discriminate|].
  destruct (ref_dagit_settings instance_ref); [discriminate|].
  intros [= <-]. split; reflexivity.
Qed.

Lemma from_config_inr config_dir config_filename inst :
  from_config config_dir config_filename = inr inst ->
  _instance_type inst = PERSISTENT /\ is_Some (_ref inst).
Proof.
  unfold from_config, try_bind.
  destruct (from_dir config_dir (Some config_filename) None) as [e|r];
    [discriminate|].
  intros Hr. apply from_ref_inr in Hr as [Ht Hr]. rewrite Hr. eauto.
Qed.

(** [_dagster_home] raises exactly when [_is_dagster_home_set] answers
    false, that is when [DAGSTER_HOME] is unset or empty; otherwise it
    returns the expanded path. Neither touches the process. *)
Theorem dagster_home_guard p :
  match _is_dagster_home_set p with
  | (inr true, p') =>
      p' = p
      /\ exists path, DAGSTER_HOME p = Some path /\ path <> EmptyString
                      /\ _dagster_home p = (inr (expanduser path), p)
  | (inr false, p') =>
      p' = p
      /\ (DAGSTER_HOME p = None \/ DAGSTER_HOME p = Some EmptyString)
      /\ _dagster_home p
         = (inl (DagsterInvariantViolationError DagsterHomeNotSet), p)
  | (inl _, _) => False
  end.
Proof.
  destruct (home_set_cases p) as [(path & Hp & Hne & -> & Hh)|(Hp & -> & Hh)].
  - split; [reflexivity|]. exists path. auto.
  - auto.
Qed.

(** An instance [get] returns is ephemeral exactly when [DAGSTER_HOME] is
    unset or empty and no fallback storage is given; otherwise it is
    persistent and carries its instance reference. It is never both. *)
Theorem get_instance_kind fallback_storage p inst p' :
  get fallback_storage p = (inr inst, p') ->
  (is_ephemeral inst = true
   <-> (DAGSTER_HOME p = None \/ DAGSTER_HOME p = Some EmptyString)
       /\ fallback_storage = None)
  /\ is_persistent inst = negb (is_ephemeral inst)
  /\ (is_persistent inst = true -> is_Some (_ref inst) /\ p' = p)
  /\ (is_ephemeral inst = true -> _ref inst = None).
Proof.
  unfold get, proc_bind.
  destruct (home_set_cases p) as [(path & Hp & Hne & -> & ->)|(Hp & -> & Hh)].
  - unfold proc_of.
    destruct (from_config _ _) as [e|i] eqn:Hc; [discriminate|].
    intros [= <- <-]. apply from_config_inr in Hc as [Ht Hr].
    unfold is_ephemeral, is_persistent. rewrite Ht.
    change (bool_decide (PERSISTENT = EPHEMERAL)) with false.
    change (bool_decide (PERSISTENT = PERSISTENT)) with true.
    split; [|split; [reflexivity|split; [auto|discriminate]]].
    split; [discriminate|].
    intros [[Hnone|Hempty] _]; congruence.
  - destruct fallback_storage as [dir|].
    + unfold proc_of.
      destruct (from_config _ _) as [e|i] eqn:Hc; [discriminate|].
      intros [= <- <-]. apply from_config_inr in Hc as [Ht Hr].
      unfold is_ephemeral, is_persistent. rewrite Ht.
      change (bool_decide (PERSISTENT = EPHEMERAL)) with false.
      change (bool_decide (PERSISTENT = PERSISTENT)) with true.
      split; [|split; [reflexivity|split; [auto|discriminate]]].
      split; [discriminate|]. intros [_ Hf]. discriminate.
    + unfold ephemeral, proc_bind, proc_of, temp_storage.
      assert (Hkind : forall i : DagsterInstance,
        _instance_type i = EPHEMERAL -> _ref i = None ->
        (is_ephemeral i = true
         <-> (DAGSTER_HOME p = None \/ DAGSTER_HOME p = Some EmptyString)
             /\ @None string = None)
        /\ is_persistent i = negb (is_ephemeral i)
        /\ (is_persistent i = true -> is_Some (_ref i) /\ p' = p)
        /\ (is_ephemeral i = true -> _ref i = None)).
      { intros i Ht Hr. unfold is_ephemeral, is_persistent. rewrite Ht.
        change (bool_decide (EPHEMERAL = EPHEMERAL)) with true.
        change (bool_decide (EPHEMERAL = PERSISTENT)) with false.
        split; [split; auto|]. split; [reflexivity|].
        split; [discriminate|]. intros _. exact Hr. }
      destruct (_PROCESS_TEMPDIR p); intros [= <- Hp'];
        apply Hkind; reflexivity.
Qed.

(** Once [DAGSTER_HOME] is set, the fallback storage plays no part. *)
Theorem get_prefers_dagster_home p path fallback_storage other :
  DAGSTER_HOME p = Some path ->
  path <> EmptyString ->
  get fallback_storage p = get other p
  /\ get fallback_storage p
     = (from_config (expanduser path) DAGSTER_CONFIG_YAML_FILENAME, p).
Proof.
  intros Hp Hne.
  assert (Hget : forall f,
    get f p = (from_config (expanduser path) DAGSTER_CONFIG_YAML_FILENAME, p)).
  { intros f. unfold get, proc_bind.
    destruct (home_set_cases p)
      as [(path' & Hp' & _ & -> & ->)|([Hn|He] & _)]; [|congruence|congruence].
    rewrite Hp in Hp'. injection Hp' as <-. reflexivity. }
  split; [rewrite !Hget; reflexivity|apply Hget].
Qed.

(** An instance built from a reference gives that reference back and is
    persistent; an ephemeral instance has none, and asking for it fails the
    check. *)
Theorem get_ref_round_trip :
  (forall instance_ref inst,
     from_ref instance_ref = inr inst ->
     get_ref inst = inr instance_ref /\ is_persistent inst = true)
  /\ (forall tempdir p inst p',
        ephemeral tempdir p = (inr inst, p') ->
        get_ref inst = inl (Check CheckError) /\ is_ephemeral inst = true).
Proof.
  split.
  - intros instance_ref inst Hr. apply from_ref_inr in Hr as [Ht Hr].
    unfold get_ref, is_persistent. rewrite Hr, Ht. auto.
  - intros tempdir p inst p'.
    unfold ephemeral, proc_bind, proc_of, temp_storage.
    destruct tempdir as [given|]; [|destruct (_PROCESS_TEMPDIR p)];
      intros [= <- <-]; auto.
Qed.

(** The temporary directory of the process is created at most once:
    [temp_storage] creates one only when the process holds none, every call
    after it answers the name of the directory held and creates no other,
    and the local artifact storage of an [ephemeral()] instance built
    afterwards lies in that directory. *)
Theorem temp_storage_created_once p dir p1 :
  temp_storage p = (inr dir, p1) ->
  is_Some (_PROCESS_TEMPDIR p1)
  /\ temp_storage p1 = (inr dir, p1)
  /\ tempdirs_created p1
     = match _PROCESS_TEMPDIR p with
       | None => S (tempdirs_created p)
       | Some _ => tempdirs_created p
       end
  /\ (is_Some (_PROCESS_TEMPDIR p) -> p1 = p)
  /\ forall inst p2,
       ephemeral None p1 = (inr inst, p2) ->
       p2 = p1 /\ _local_artifact_storage inst = new_LocalArtifactStorage dir.
Proof.
  unfold ephemeral, proc_bind, proc_of, temp_storage.
  destruct (_PROCESS_TEMPDIR p) as [held|] eqn:Hheld.
  - intros [= <- <-]. rewrite Hheld.
    split; [eauto|]. do 3 (split; [reflexivity|]).
    intros inst p2 [= <- <-]. split; reflexivity.
  - intros [= <- <-]. simpl.
    split; [eauto|]. do 2 (split; [reflexivity|]).
    split; [intros [held Hsome]; discriminate|].
    intros inst p2 [= <- <-]. split; reflexivity.
Qed.

End WithParts.

Lemma get_instance_kind_witness :
  exists inst p',
    @get sample_parts None (fresh_process (Some EmptyString)) = (inr inst, p')
    /\ @is_ephemeral sample_parts inst = true
    /\ @is_persistent sample_parts inst = false.
Proof.
  assert (Hget : { r | @get sample_parts None (fresh_process (Some EmptyString))
                       = (inr (fst r), snd r) })
    by (eexists (_, _); vm_compute; reflexivity).
  destruct Hget as [[inst p'] Hget]. unfold fst, snd in Hget.
  destruct (@get_instance_kind sample_parts _ _ _ _ Hget)
    as (Heph & Hpers & _).
  assert (He : @is_ephemeral sample_parts inst = true).
  { apply Heph. split; [right|]; reflexivity. }
  exists inst, p'. split; [exact Hget|]. split; [exact He|].
  rewrite Hpers, He. reflexivity.
Defined.

Lemma get_prefers_dagster_home_witness :
  @get sample_parts (Some "/var/fallback") (fresh_process (Some "/opt/dagster"))
  = @get sample_parts None (fresh_process (Some "/opt/dagster")).
Proof.
  assert (Hne : "/opt/dagster" <> EmptyString) by discriminate.
  exact (proj1 (@get_prefers_dagster_home sample_parts
                  (fresh_process (Some "/opt/dagster")) "/opt/dagster"
                  (Some "/var/fallback") None eq_refl Hne)).
Defined.

Lemma get_ref_round_trip_witness :
  exists inst,
    @from_ref sample_parts "/opt/dagster" = inr inst
    /\ @get_ref sample_parts inst = inr "/opt/dagster".
Proof.
  assert (Hr : { inst | @from_ref sample_parts "/opt/dagster" = inr inst })
    by (eexists; vm_compute; reflexivity).
  destruct Hr as [inst Hr]. exists inst. split; [exact Hr|].
  exact (proj1 (proj1 (@get_ref_round_trip sample_parts) _ _ Hr)).
Defined.

Lemma temp_storage_created_once_witness :
  exists p1,
    @temp_storage sample_parts (fresh_process None) = (inr "/tmp/dagster", p1)
    /\ @temp_storage sample_parts p1 = (inr "/tmp/dagster", p1)
    /\ tempdirs_created p1 = 1.
Proof.
  assert (Hfirst : { p1 | @temp_storage sample_parts (fresh_process None)
                          = (inr "/tmp/dagster", p1) })
    by (eexists; vm_compute; reflexivity).
  destruct Hfirst as [p1 Hfirst].
  destruct (@temp_storage_created_once sample_parts _ _ _ Hfirst)
    as (_ & Hagain & Hcount & _).
  exists p1. split; [exact Hfirst|]. split; [exact Hagain|]. exact Hcount.
Defined.

End InstanceHomeSpec.
